(** * PySyft-TensorFlow: the TensorFlow hook

    A shallow embedding of [syft_tensorflow/hook/hook.py].  Python objects
    whose attributes are read and written by name (the native tensor type,
    the framework namespaces, the keras module supertype) are finite maps
    from attribute names to values; the process-wide state that the hook
    mutates ([tensorflow.hook], [syft.local_worker], ...) is a record that
    every operation threads explicitly; Python exceptions are the [Raise]
    branch of a result type. *)

From Stdlib Require Import Floats.SpecFloat.
From stdpp Require Import gmap strings list sorting.

Import Ascii.AsciiSyntax.
Delimit Scope char_scope with char.
Open Scope string_scope.

(** ** Exceptions and results *)

Inductive exn : Set :=
| IndexError
| AssertionError
| AttributeError
| TypeError
| LocationMismatchError
| UnresolvedPointerError
| UndefinedBySpec.

Inductive result (A : Type) : Type :=
| Ok (a : A)
| Raise (e : exn).
Arguments Ok {A} a.
Arguments Raise {A} e.

Definition result_bind {A B} (f : A → result B) (m : result A) : result B :=
  match m with
  | Ok a => f a
  | Raise e => Raise e
  end.

#[global] Instance result_mbind : MBind result := @result_bind.
#[global] Instance result_mret : MRet result := @Ok.

Definition returns {A} (m : result A) : Prop := ∃ a, m = Ok a.

(** ** Python string operations used by the hook *)

Module Str.

(** [s.startswith(pre)] *)
Fixpoint startswith (pre s : string) : bool :=
  match pre, s with
  | EmptyString, _ => true
  | String _ _, EmptyString => false
  | String a pre', String b s' => if Ascii.eqb a b then startswith pre' s' else false
  end.

(** [sub in s] *)
Fixpoint contains (sub s : string) : bool :=
  startswith sub s ||
  match s with
  | EmptyString => false
  | String _ s' => contains sub s'
  end.

(** [c.isupper()] for an ASCII character. *)
Definition isupper (c : Ascii.ascii) : bool :=
  let n := Ascii.N_of_ascii c in ((65 <=? n) && (n <=? 90))%N.

(** Names are Python strings, held here as their UTF-8 bytes.  The number
    of bytes of the character that starts with the byte [c]. *)
Definition utf8_length (c : Ascii.ascii) : nat :=
  let n := Ascii.N_of_ascii c in
  if (n <? 192)%N then 1 else if (n <? 224)%N then 2 else if (n <? 240)%N then 3 else 4.

(** [s[0]]: the first character of [s], as its bytes; [None] is the
    [IndexError] of the empty string. *)
Definition first_char (s : string) : option string :=
  match s with
  | EmptyString => None
  | String c _ => Some (String.substring 0 (utf8_length c) s)
  end.

(** [ch.isupper()] for a character [ch]: the ASCII letters [A] to [Z], and
    for a character outside ASCII whatever Python's Unicode database says,
    which is the parameter [unicode_isupper]. *)
Definition char_isupper (unicode_isupper : string → bool) (ch : string) : bool :=
  match ch with
  | String c EmptyString =>
      if (Ascii.N_of_ascii c <? 128)%N then isupper c else unicode_isupper ch
  | _ => unicode_isupper ch
  end.

(** The database for runs on ASCII names, where it is never consulted. *)
Definition ascii_only (ch : string) : bool := false.

(** [s.split(sep)] for a one-character separator. *)
Fixpoint split (sep : Ascii.ascii) (s : string) : list string :=
  match s with
  | EmptyString => [EmptyString]
  | String c s' =>
      if Ascii.eqb c sep then EmptyString :: split sep s'
      else match split sep s' with
           | [] => [String c EmptyString]
           | h :: t => String c h :: t
           end
  end.

(** [sep.join(l)] *)
Fixpoint join (sep : string) (l : list string) : string :=
  match l with
  | [] => EmptyString
  | [x] => x
  | x :: l' => x +:+ sep +:+ join sep l'
  end.

(** [l[:-1]] *)
Definition drop_last {A} (l : list A) : list A := removelast l.

End Str.

(** ** Attribute tables *)

(** References to hook instances, workers and tensor instances. *)
Definition href := nat.
Definition wref := nat.
Definition ident := nat.

(** What an attribute of a type or of a namespace can hold.  Native and
    syft implementations are opaque; the closures and properties that the
    hook creates are named after their definitions in [hook.py]. *)
Inductive value : Type :=
| Opaque (tok : string)
| Closure_new___init__ (hook_self : href) (is_tensor : bool)
| Property_location
| Property_id_at_location
| Property_id
| Property_owner (hook_self : href)
| Property_is_wrapper
| Fn_dim
| Fn_module_send_
| Fn_module_get_.

Abbreviation table := (gmap string value).

(** [dir(obj)]: the attribute names, in alphabetical order. *)
Definition dir (t : table) : list string :=
  merge_sort String.le (elements (dom t)).

Definition native_name (attr : string) : string := "native_" +:+ attr.

(** [getattr(obj, name)], raising [AttributeError] when absent. *)
Definition getattr (t : table) (name : string) : result value :=
  match t !! name with
  | Some v => Ok v
  | None => Raise AttributeError
  end.

(** ** The module overloader: [_hook_tensorflow_module] *)

Module Overloader.

Inductive decision : Set :=
| Skip
| Overload
| Fails (e : exn).

(** The body of the inner loop up to the call of
    [_perform_function_overloading], one [continue] per test. *)
Definition hook_decision (unicode_isupper : string → bool) (exclude : list string)
    (tensorflow_module : table) (func : string) : decision :=
  if bool_decide (func ∈ exclude) then Skip
  else if Str.contains "__" func then Skip
  else match Str.first_char func with
       | None => Fails IndexError
       | Some ch =>
           if Str.char_isupper unicode_isupper ch then Skip
           else if bool_decide (ch = "_") then Skip
           else if Str.contains "native_" func
                   || bool_decide (native_name func ∈ dir tensorflow_module)
                then Skip
                else Overload
       end.

Section Walk.
(** Python's [str.isupper] on characters outside ASCII. *)
Variable unicode_isupper : string → bool.
(** [FrameworkHook._perform_function_overloading], inherited from the
    syft library. *)
Variable _perform_function_overloading : table → string → table.
(** [syft.tensorflow.exclude] *)
Variable exclude : list string.

(** [for func in dir(tensorflow_module)]: the list of names is taken
    once, the alias test reads the namespace as it is at that turn. *)
Fixpoint walk (funcs : list string) (tensorflow_module : table) : result table :=
  match funcs with
  | [] => Ok tensorflow_module
  | func :: funcs' =>
      match hook_decision unicode_isupper exclude tensorflow_module func with
      | Skip => walk funcs' tensorflow_module
      | Overload =>
          walk funcs' (_perform_function_overloading tensorflow_module func)
      | Fails e => Raise e
      end
  end.

Definition hook_namespace (tensorflow_module : table) : result table :=
  walk (dir tensorflow_module) tensorflow_module.

(** [for module_name, tensorflow_module in tensorflow_modules.items()] *)
Fixpoint _hook_tensorflow_module (tensorflow_modules : list (string * table))
    : result (list (string * table)) :=
  match tensorflow_modules with
  | [] => Ok []
  | (module_name, m) :: rest =>
      m' ← hook_namespace m;
      rest' ← _hook_tensorflow_module rest;
      Ok ((module_name, m') :: rest')
  end.
End Walk.

(** An instance of the overloading that the syft library performs, for
    concrete runs: the native function is kept under its alias and the name
    holds the hooked function. *)
Definition alias_and_replace (tensorflow_module : table) (func : string) : table :=
  match tensorflow_module !! func with
  | Some native =>
      <[func := Opaque ("hooked " +:+ func)]>
        (<[native_name func := native]> tensorflow_module)
  | None => tensorflow_module
  end.

(** The eligibility test in the words of the specification: not
    excluded, not a dunder name, not capitalised, not private, and no
    [native_<name>] alias in the namespace. *)
Definition is_dunder (func : string) : bool :=
  Str.startswith "__" func && Str.startswith "__" (String.rev func).

Definition spec_eligible (unicode_isupper : string → bool) (exclude : list string)
    (tensorflow_module : table) (func : string) : Prop :=
  (func ∉ exclude)
  ∧ is_dunder func = false
  ∧ (∀ ch, Str.first_char func = Some ch → Str.char_isupper unicode_isupper ch = false)
  ∧ Str.startswith "_" func = false
  ∧ (native_name func ∉ dir tensorflow_module).

(** The test as the code performs it. *)
Definition code_eligible (unicode_isupper : string → bool) (exclude : list string)
    (tensorflow_module : table) (func : string) : Prop :=
  (func ∉ exclude)
  ∧ Str.contains "__" func = false
  ∧ (∃ ch, Str.first_char func = Some ch
           ∧ Str.char_isupper unicode_isupper ch = false ∧ ch ≠ "_")
  ∧ Str.contains "native_" func = false
  ∧ (native_name func ∉ dir tensorflow_module).

End Overloader.

(** ** Module names of hooked functions: [_get_hooked_func] *)

Module HookedFunc.

(** The attributes of a function object that [_get_hooked_func] reads
    and writes; [None] is an absent attribute. *)
Record func_attr : Type := {
  _tf_api_names : option (list string);
  _keras_api_names : option (list string);
  __module__ : string
}.

Definition set___module__ (attr : func_attr) (m : string) : func_attr :=
  {| _tf_api_names := _tf_api_names attr;
     _keras_api_names := _keras_api_names attr;
     __module__ := m |}.

(** [".".join(name.split(".")[:-1])] *)
Definition submodule_of (name : string) : string :=
  Str.join "." (Str.drop_last (Str.split "."%char name)).

Definition tf_branch (attr : func_attr) : result func_attr :=
  match _tf_api_names attr with
  | None => Ok attr
  | Some [] => Raise AssertionError
  | Some (name :: _) =>
      let new_submodule := submodule_of name in
      if bool_decide (new_submodule = "")
      then Ok (set___module__ attr "tensorflow")
      else Ok (set___module__ attr (Str.join "." ["tensorflow"; new_submodule]))
  end.

Definition keras_branch (attr : func_attr) : result func_attr :=
  match _keras_api_names attr with
  | None => Ok attr
  | Some [] => Raise AssertionError
  | Some (name :: _) =>
      let new_submodule := submodule_of name in
      Ok (set___module__ attr (Str.join "." ["tensorflow"; new_submodule]))
  end.

Section Super.
Variable hooked : Type.
(** [FrameworkHook._get_hooked_func], from the syft library. *)
Variable super__get_hooked_func : func_attr → hooked.

Definition _get_hooked_func (attr : func_attr) : result hooked :=
  attr ← tf_branch attr;
  attr ← keras_branch attr;
  Ok (super__get_hooked_func attr).
End Super.


(** The module a wrapped function reports. *)
Definition reported_module (attr : func_attr) : result string :=
  _get_hooked_func string __module__ attr.

(** The module the specification asks for: the submodule of the first
    API name below the framework root, or the root itself. *)
Definition spec_module (name : string) : string :=
  if bool_decide (submodule_of name = "") then "tensorflow"
  else "tensorflow." +:+ submodule_of name.

End HookedFunc.

(** ** Identity properties: the accessors of [_hook_properties] *)

Module Identity.

(** The hidden attributes behind the properties; [None] is an attribute
    that [hasattr] does not find.  A worker reference may be Python's
    [None], hence the inner option of [_owner]. *)
Record instance : Type := {
  _syft_id : option ident;
  _owner : option (option wref);
  _is_wrapper : option bool
}.

Definition fresh_instance : instance :=
  {| _syft_id := None; _owner := None; _is_wrapper := None |}.

Section Provider.
(** [syft.ID_PROVIDER]: the n-th call of [pop] returns [id_seq n]; the
    state of the provider is the number of calls made so far. *)
Variable id_seq : nat → ident.

Definition pop (provider : nat) : ident * nat := (id_seq provider, S provider).

(** [id] getter *)
Definition id_get (self : instance) (provider : nat) : ident * instance * nat :=
  match _syft_id self with
  | Some i => (i, self, provider)
  | None =>
      let '(i, provider') := pop provider in
      (i,
       {| _syft_id := Some i; _owner := _owner self; _is_wrapper := _is_wrapper self |},
       provider')
  end.
End Provider.

(** [id] setter *)
Definition id_set (self : instance) (new_syft_id : ident) : instance :=
  {| _syft_id := Some new_syft_id; _owner := _owner self; _is_wrapper := _is_wrapper self |}.

(** [owner] getter; [local_worker] is the value of [hook_self.local_worker]
    at the time of the read. *)
Definition owner_get (local_worker : option wref) (self : instance)
    : option wref * instance :=
  match _owner self with
  | Some w => (w, self)
  | None =>
      (local_worker,
       {| _syft_id := _syft_id self; _owner := Some local_worker;
          _is_wrapper := _is_wrapper self |})
  end.

(** [owner] setter *)
Definition owner_set (self : instance) (new_owner : option wref) : instance :=
  {| _syft_id := _syft_id self; _owner := Some new_owner; _is_wrapper := _is_wrapper self |}.

(** [is_wrapper] getter and setter *)
Definition is_wrapper_get (self : instance) : bool * instance :=
  match _is_wrapper self with
  | Some b => (b, self)
  | None =>
      (false,
       {| _syft_id := _syft_id self; _owner := _owner self; _is_wrapper := Some false |})
  end.

Definition is_wrapper_set (self : instance) (it_is_a_wrapper : bool) : instance :=
  {| _syft_id := _syft_id self; _owner := _owner self;
     _is_wrapper := Some it_is_a_wrapper |}.

(** *** Sequences of accesses

    One access to a property of an instance.  A read carries the part of
    the process state that the getter consults at that moment: the state
    of the id provider, or the current [hook_self.local_worker]. *)
Inductive access : Type :=
| Read_id (provider : nat)
| Write_id (new_syft_id : ident)
| Read_owner (local_worker : option wref)
| Write_owner (new_owner : option wref)
| Read_is_wrapper
| Write_is_wrapper (it_is_a_wrapper : bool).

Inductive observation : Type :=
| Saw_id (i : ident)
| Saw_owner (w : option wref)
| Saw_is_wrapper (b : bool)
| Wrote.

Definition writes_id (a : access) : bool :=
  match a with Write_id _ => true | _ => false end.

Definition writes_owner (a : access) : bool :=
  match a with Write_owner _ => true | _ => false end.

Section Run.
Variable id_seq : nat → ident.

Definition step (a : access) (self : instance) : observation * instance :=
  match a with
  | Read_id provider =>
      let '(i, self, _) := id_get id_seq self provider in (Saw_id i, self)
  | Write_id j => (Wrote, id_set self j)
  | Read_owner lw => let '(w, self) := owner_get lw self in (Saw_owner w, self)
  | Write_owner w => (Wrote, owner_set self w)
  | Read_is_wrapper => let '(b, self) := is_wrapper_get self in (Saw_is_wrapper b, self)
  | Write_is_wrapper b => (Wrote, is_wrapper_set self b)
  end.

Fixpoint run (l : list access) (self : instance) : list observation * instance :=
  match l with
  | [] => ([], self)
  | a :: l' =>
      let '(o, self) := step a self in
      let '(os, self) := run l' self in
      (o :: os, self)
  end.
End Run.

End Identity.

(** ** Installing the hook on the native tensor type *)

Module Install.

(** The exclusion list of [_add_methods_from_native_tensor]. *)
Definition exclude : list string :=
  [ "__class__"; "__delattr__"; "__dir__"; "__doc__"; "__dict__";
    "__format__"; "__getattribute__"; "__hash__"; "__init__";
    "__init_subclass__"; "__weakref__"; "__ne__"; "__new__"; "__reduce__";
    "__reduce_ex__"; "__setattr__"; "__sizeof__"; "__subclasshook__";
    "__gt__"; "__ge__"; "__lt__"; "__le__" ].

(** [_add_registration_to___init__] *)
Definition _add_registration_to___init__ (hook_self : href) (tensor_type : table)
    (is_tensor : bool) : result table :=
  tensor_type ←
    (if bool_decide ("native___init__" ∈ dir tensor_type) then Ok tensor_type
     else init ← getattr tensor_type "__init__";
          Ok (<["native___init__" := init]> tensor_type));
  Ok (<["__init__" := Closure_new___init__ hook_self is_tensor]> tensor_type).

(** [_hook_properties] *)
Definition _hook_properties (hook_self : href) (tensor_type : table) : result table :=
  let tensor_type := <["location" := Property_location]> tensor_type in
  let tensor_type := <["id_at_location" := Property_id_at_location]> tensor_type in
  let tensor_type := <["id" := Property_id]> tensor_type in
  let tensor_type := <["owner" := Property_owner hook_self]> tensor_type in
  let tensor_type := <["is_wrapper" := Property_is_wrapper]> tensor_type in
  shape ← getattr tensor_type "shape";
  let tensor_type := <["native_shape" := shape]> tensor_type in
  Ok (<["dim" := Fn_dim]> tensor_type).

(** [_hook_keras_module], on the attribute table of [tensorflow.Module] *)
Definition _hook_keras_module (Module : table) : table :=
  let Module := <["send" := Fn_module_send_]> Module in
  let Module := <["send_" := Fn_module_send_]> Module in
  let Module := <["get_" := Fn_module_get_]> Module in
  <["get" := Fn_module_get_]> Module.

Section Methods.
(** The attribute table of the class [TensorFlowTensor]. *)
Variable TensorFlowTensor : table.

(** One turn of the loop of [_add_methods_from_native_tensor]. *)
Definition add_method (tensor_type : table) (attr : string) : result table :=
  if bool_decide (attr ∈ exclude) then Ok tensor_type
  else
    let tensor_type :=
      match tensor_type !! attr with
      | Some native => <[native_name attr := native]> tensor_type
      | None => tensor_type
      end in
    method ← getattr TensorFlowTensor attr;
    Ok (<[attr := method]> tensor_type).

Fixpoint add_methods (attrs : list string) (tensor_type : table) : result table :=
  match attrs with
  | [] => Ok tensor_type
  | attr :: attrs' =>
      tensor_type ← add_method tensor_type attr;
      add_methods attrs' tensor_type
  end.

(** [_add_methods_from_native_tensor] *)
Definition _add_methods_from_native_tensor (tensor_type syft_type : table)
    : result table :=
  add_methods (dir syft_type) tensor_type.

(** [_hook_native_tensor] *)
Definition _hook_native_tensor (hook_self : href) (tensor_type syft_type : table)
    : result table :=
  tensor_type ← _add_registration_to___init__ hook_self tensor_type true;
  tensor_type ← _hook_properties hook_self tensor_type;
  _add_methods_from_native_tensor tensor_type syft_type.
End Methods.

End Install.

(** ** The constructor [TensorFlowHook.__init__] *)

Module Hook.

Record hook_obj : Type := {
  local_worker : option wref;
  (** [to_auto_overload] and [args_hook_for_overloaded_attr] exist *)
  overload_dicts : bool
}.

Record worker_obj : Type := {
  worker_id : string;
  worker_hook : option href;
  is_client_worker : bool
}.

(** The state of the process that the constructor reads and writes: the
    framework module [tensorflow] it is given (the marker [tf_hooked], its
    attribute [hook], the attribute table of its class [Module], and the
    namespaces that [syft.tensorflow.tensorflow_modules] lists), the native
    type [Tensor], the globals of the package [syft], the hook and worker
    objects, and the warnings logged so far.  A [TensorFlowAttributes]
    object is identified by the hook it is built for, which is also the
    value of its attribute [hook]. *)
Record process : Type := {
  tf_hooked : bool;
  tf_hook : option href;
  tf_Module : table;
  tensorflow_modules : list (string * table);
  Tensor : table;
  syft_tensorflow : option href;
  syft_framework : option href;
  syft_local_worker : option wref;
  syft_hook : option href;
  hooks : gmap href hook_obj;
  workers : gmap wref worker_obj;
  warnings : list string
}.

Definition set_tf_hooked (b : bool) (s : process) : process :=
  {| tf_hooked := b; tf_hook := tf_hook s; tf_Module := tf_Module s;
     tensorflow_modules := tensorflow_modules s; Tensor := Tensor s;
     syft_tensorflow := syft_tensorflow s; syft_framework := syft_framework s;
     syft_local_worker := syft_local_worker s; syft_hook := syft_hook s;
     hooks := hooks s; workers := workers s; warnings := warnings s |}.

Definition set_tf_hook (h : option href) (s : process) : process :=
  {| tf_hooked := tf_hooked s; tf_hook := h; tf_Module := tf_Module s;
     tensorflow_modules := tensorflow_modules s; Tensor := Tensor s;
     syft_tensorflow := syft_tensorflow s; syft_framework := syft_framework s;
     syft_local_worker := syft_local_worker s; syft_hook := syft_hook s;
     hooks := hooks s; workers := workers s; warnings := warnings s |}.

Definition set_tf_Module (m : table) (s : process) : process :=
  {| tf_hooked := tf_hooked s; tf_hook := tf_hook s; tf_Module := m;
     tensorflow_modules := tensorflow_modules s; Tensor := Tensor s;
     syft_tensorflow := syft_tensorflow s; syft_framework := syft_framework s;
     syft_local_worker := syft_local_worker s; syft_hook := syft_hook s;
     hooks := hooks s; workers := workers s; warnings := warnings s |}.

Definition set_tensorflow_modules (ms : list (string * table)) (s : process) : process :=
  {| tf_hooked := tf_hooked s; tf_hook := tf_hook s; tf_Module := tf_Module s;
     tensorflow_modules := ms; Tensor := Tensor s;
     syft_tensorflow := syft_tensorflow s; syft_framework := syft_framework s;
     syft_local_worker := syft_local_worker s; syft_hook := syft_hook s;
     hooks := hooks s; workers := workers s; warnings := warnings s |}.

Definition set_Tensor (t : table) (s : process) : process :=
  {| tf_hooked := tf_hooked s; tf_hook := tf_hook s; tf_Module := tf_Module s;
     tensorflow_modules := tensorflow_modules s; Tensor := t;
     syft_tensorflow := syft_tensorflow s; syft_framework := syft_framework s;
     syft_local_worker := syft_local_worker s; syft_hook := syft_hook s;
     hooks := hooks s; workers := workers s; warnings := warnings s |}.

(** [syft.tensorflow = a; syft.framework = syft.tensorflow] *)
Definition set_syft_tensorflow (a : option href) (s : process) : process :=
  {| tf_hooked := tf_hooked s; tf_hook := tf_hook s; tf_Module := tf_Module s;
     tensorflow_modules := tensorflow_modules s; Tensor := Tensor s;
     syft_tensorflow := a; syft_framework := syft_framework s;
     syft_local_worker := syft_local_worker s; syft_hook := syft_hook s;
     hooks := hooks s; workers := workers s; warnings := warnings s |}.

Definition set_syft_framework (a : option href) (s : process) : process :=
  {| tf_hooked := tf_hooked s; tf_hook := tf_hook s; tf_Module := tf_Module s;
     tensorflow_modules := tensorflow_modules s; Tensor := Tensor s;
     syft_tensorflow := syft_tensorflow s; syft_framework := a;
     syft_local_worker := syft_local_worker s; syft_hook := syft_hook s;
     hooks := hooks s; workers := workers s; warnings := warnings s |}.

Definition set_syft_local_worker (w : option wref) (s : process) : process :=
  {| tf_hooked := tf_hooked s; tf_hook := tf_hook s; tf_Module := tf_Module s;
     tensorflow_modules := tensorflow_modules s; Tensor := Tensor s;
     syft_tensorflow := syft_tensorflow s; syft_framework := syft_framework s;
     syft_local_worker := w; syft_hook := syft_hook s;
     hooks := hooks s; workers := workers s; warnings := warnings s |}.

Definition set_syft_hook (h : option href) (s : process) : process :=
  {| tf_hooked := tf_hooked s; tf_hook := tf_hook s; tf_Module := tf_Module s;
     tensorflow_modules := tensorflow_modules s; Tensor := Tensor s;
     syft_tensorflow := syft_tensorflow s; syft_framework := syft_framework s;
     syft_local_worker := syft_local_worker s; syft_hook := h;
     hooks := hooks s; workers := workers s; warnings := warnings s |}.

Definition set_hooks (hs : gmap href hook_obj) (s : process) : process :=
  {| tf_hooked := tf_hooked s; tf_hook := tf_hook s; tf_Module := tf_Module s;
     tensorflow_modules := tensorflow_modules s; Tensor := Tensor s;
     syft_tensorflow := syft_tensorflow s; syft_framework := syft_framework s;
     syft_local_worker := syft_local_worker s; syft_hook := syft_hook s;
     hooks := hs; workers := workers s; warnings := warnings s |}.

Definition set_workers (ws : gmap wref worker_obj) (s : process) : process :=
  {| tf_hooked := tf_hooked s; tf_hook := tf_hook s; tf_Module := tf_Module s;
     tensorflow_modules := tensorflow_modules s; Tensor := Tensor s;
     syft_tensorflow := syft_tensorflow s; syft_framework := syft_framework s;
     syft_local_worker := syft_local_worker s; syft_hook := syft_hook s;
     hooks := hooks s; workers := ws; warnings := warnings s |}.

Definition logging_warning (msg : string) (s : process) : process :=
  {| tf_hooked := tf_hooked s; tf_hook := tf_hook s; tf_Module := tf_Module s;
     tensorflow_modules := tensorflow_modules s; Tensor := Tensor s;
     syft_tensorflow := syft_tensorflow s; syft_framework := syft_framework s;
     syft_local_worker := syft_local_worker s; syft_hook := syft_hook s;
     hooks := hooks s; workers := workers s; warnings := (warnings s ++ [msg])%list |}.

(** [self.local_worker = w] and [self.local_worker] *)
Definition set_local_worker (self : href) (w : option wref) (s : process) : process :=
  let dicts := from_option overload_dicts false (hooks s !! self) in
  set_hooks (<[self := {| local_worker := w; overload_dicts := dicts |}]> (hooks s)) s.

Definition get_local_worker (self : href) (s : process) : option wref :=
  hooks s !! self ≫= local_worker.

(** The process before any hook is constructed. *)
Definition unhooked (tensor Module : table) (modules : list (string * table))
    : process :=
  {| tf_hooked := false; tf_hook := None; tf_Module := Module;
     tensorflow_modules := modules; Tensor := tensor;
     syft_tensorflow := None; syft_framework := None;
     syft_local_worker := None; syft_hook := None;
     hooks := ∅; workers := ∅; warnings := [] |}.

Definition already_hooked_msg : string :=
  "TF was already hooked... skipping hooking process".

Section Init.
Variable TensorFlowTensor : table.
Variable unicode_isupper : string → bool.
Variable _perform_function_overloading : table → string → table.
(** [syft.tensorflow.exclude] *)
Variable exclude : list string.

(** [VirtualWorker(hook=self, is_client_worker=is_client, id="me")] *)
Definition VirtualWorker (self : href) (is_client : bool) (s : process)
    : wref * process :=
  let w := fresh (dom (workers s)) in
  (w,
   set_workers
     (<[w := {| worker_id := "me"; worker_hook := Some self;
                is_client_worker := is_client |}]> (workers s)) s).

(** The part of [__init__] after the marker is set. *)
Definition install (self : href) (is_client : bool) (s : process) : result process :=
  let s :=
    match get_local_worker self s with
    | None =>
        let '(w, s) := VirtualWorker self is_client s in
        set_local_worker self (Some w) s
    | Some w =>
        set_workers
          (alter (λ o, {| worker_id := worker_id o; worker_hook := Some self;
                          is_client_worker := is_client_worker o |}) w (workers s)) s
    end in
  let s :=
    set_hooks (<[self := {| local_worker := get_local_worker self s;
                            overload_dicts := true |}]> (hooks s)) s in
  tensor ← Install._hook_native_tensor TensorFlowTensor self (Tensor s) TensorFlowTensor;
  let s := set_Tensor tensor s in
  modules ← Overloader._hook_tensorflow_module unicode_isupper
              _perform_function_overloading exclude
              (tensorflow_modules s);
  let s := set_tensorflow_modules modules s in
  let s := set_tf_Module (Install._hook_keras_module (tf_Module s)) s in
  let s := set_syft_local_worker (get_local_worker self s) s in
  Ok (set_syft_hook (Some self) s).

(** [TensorFlowHook(tensorflow, local_worker, is_client)], run on the
    new instance [self]. *)
Definition __init__ (self : href) (local_worker : option wref) (is_client : bool)
    (s : process) : result process :=
  let s := set_tf_hook (Some self) s in
  let s := set_syft_tensorflow (Some self) s in
  let s := set_syft_framework (syft_tensorflow s) s in
  let s := set_local_worker self local_worker s in
  if tf_hooked s then
    let s := logging_warning already_hooked_msg s in
    Ok (set_local_worker self (syft_local_worker s) s)
  else
    install self is_client (set_tf_hooked true s).
End Init.

End Hook.

(** ** The replaced constructor *)

Module Constructor.



Section Ctor.
Variable id_seq : nat → ident.



End Ctor.


End Constructor.

(** ** Tensors, pointers and workers *)

Module Proxy.

Definition tref := nat.

Section Payload.
(** The numeric content of a tensor and the addition kernel of the host
    framework, which the proxy layer reuses as it is. *)
Variable payload : Type.
Variable native___add__ : payload → payload → result payload.

Inductive child_t : Type :=
| Local (data : payload)
| Pointer (location : wref) (id_at_location : ident).

(** A tensor: its identity attributes and its child.  The owner of a
    Pointer is the owner of the tensor that holds it. *)
Record tensor : Type := {
  identity : Identity.instance;
  child : child_t
}.

(** The objects that each reachable worker holds, by id. *)
Definition world := gmap wref (gmap ident payload).

(** Modelled from the spec: the Worker capability of section 6,
    [register(object) -> id], [retrieve(id) -> payload] and
    [execute(command) -> id]; the worker code is not part of [hook.py].
    An id unknown to the worker is an [UnresolvedPointerError]. *)
Definition register (obj : payload) (objects : gmap ident payload)
    : ident * gmap ident payload :=
  let k := fresh (dom objects) in (k, <[k := obj]> objects).

Definition retrieve (k : ident) (objects : gmap ident payload) : result payload :=
  match objects !! k with
  | Some obj => Ok obj
  | None => Raise UnresolvedPointerError
  end.

Record command : Type := {
  operation : string;
  operands : list ident
}.

Definition execute (cmd : command) (objects : gmap ident payload)
    : result (ident * gmap ident payload) :=
  if bool_decide (operation cmd = "__add__") then
    match operands cmd with
    | [i; j] =>
        p ← retrieve i objects;
        q ← retrieve j objects;
        r ← native___add__ p q;
        Ok (register r objects)
    | _ => Raise UndefinedBySpec
    end
  else Raise UndefinedBySpec.

Definition with_child (self : tensor) (is_wrapper : bool) (c : child_t) : tensor :=
  {| identity := Identity.is_wrapper_set (identity self) is_wrapper; child := c |}.

(** Modelled from the spec: [TensorFlowTensor.send] of
    [syft_tensorflow/tensor.py], which is not among the sources.  Section
    4.2: the local payload moves to the destination, the child becomes a
    Pointer to the remote copy, and [self] is returned.  The flag
    [is_wrapper] follows the invariant of section 3: true exactly when
    the child is not raw data.  Sending a tensor that holds no local
    payload is not defined by the specification. *)
Definition send (self : tensor) (destination : wref) (W : world)
    : result (tensor * world) :=
  match child self with
  | Local data =>
      match W !! destination with
      | None => Raise UnresolvedPointerError
      | Some objects =>
          let '(k, objects) := register data objects in
          Ok (with_child self true (Pointer destination k),
              <[destination := objects]> W)
      end
  | Pointer _ _ => Raise UndefinedBySpec
  end.

(** Modelled from the spec: [TensorFlowTensor.get], section 4.2: the
    remote worker returns the payload, which replaces the Pointer child;
    [self] is returned. *)
Definition get (self : tensor) (W : world) : result (tensor * world) :=
  match child self with
  | Pointer location k =>
      match W !! location with
      | None => Raise UnresolvedPointerError
      | Some objects =>
          data ← retrieve k objects;
          Ok (with_child self false (Local data), W)
      end
  | Local _ => Raise UndefinedBySpec
  end.

(** The result of an operation: a fresh identity (the id is generated
    when first read) that inherits the owner of the operand. *)
Definition result_of (self : tensor) (is_wrapper : bool) (c : child_t) : tensor :=
  {| identity := {| Identity._syft_id := None;
                    Identity._owner := Identity._owner (identity self);
                    Identity._is_wrapper := Some is_wrapper |};
     child := c |}.

(** Modelled from the spec: the addition of two tensors, section 4.2.
    Local operands run the native kernel; two Pointers to one location
    send a command to that worker and wrap the id it answers; any other
    pair of operands is a location mismatch. *)
Definition __add__ (self other : tensor) (W : world) : result (tensor * world) :=
  match child self, child other with
  | Local p, Local q =>
      r ← native___add__ p q;
      Ok (result_of self false (Local r), W)
  | Pointer l i, Pointer l' j =>
      if bool_decide (l = l') then
        match W !! l with
        | None => Raise UnresolvedPointerError
        | Some objects =>
            '(k, objects) ← execute {| operation := "__add__"; operands := [i; j] |}
                              objects;
            Ok (result_of self true (Pointer l k), <[l := objects]> W)
        end
      else Raise LocationMismatchError
  | _, _ => Raise LocationMismatchError
  end.

(** [a.send(w).get()] *)
Definition send_get (a : tensor) (w : wref) (W : world) : result (tensor * world) :=
  '(a, W) ← send a w W;
  get a W.

(** [(a.send(w) + b.send(w)).get()] *)
Definition remote_add (a b : tensor) (w : wref) (W : world)
    : result (tensor * world) :=
  '(x, W) ← send a w W;
  '(y, W) ← send b w W;
  '(z, W) ← __add__ x y W;
  get z W.

(** *** Tensors as shared objects: the weights of a module *)

Definition heap := gmap tref tensor.

(** [p.send_] on the destinations [dest] and [p.get_()] on the tensor object [p]: the
    operations above, in place.  The specification defines a send to one
    destination. *)
Definition send_ (p : tref) (dest : list wref) (σ : heap * world)
    : result (heap * world) :=
  match σ.1 !! p, dest with
  | Some t, [w] =>
      '(t, W) ← send t w σ.2;
      Ok (<[p := t]> σ.1, W)
  | Some _, _ => Raise UndefinedBySpec
  | None, _ => Raise AttributeError
  end.

Definition get_ (p : tref) (σ : heap * world) : result (heap * world) :=
  match σ.1 !! p with
  | Some t =>
      '(t, W) ← get t σ.2;
      Ok (<[p := t]> σ.1, W)
  | None => Raise AttributeError
  end.

(** A module object; [weights] lists its parameters. *)
Record keras_module : Type := {
  weights : list tref
}.

(** [for p in ps: f(p)] *)
Fixpoint for_each (f : tref → heap * world → result (heap * world))
    (ps : list tref) (σ : heap * world) : result (heap * world) :=
  match ps with
  | [] => Ok σ
  | p :: ps' =>
      σ ← f p σ;
      for_each f ps' σ
  end.

(** [module_send_] and [module_get_] of [_hook_keras_module] *)
Definition module_send_ (nn_self : keras_module) (dest : list wref)
    (σ : heap * world) : result (keras_module * (heap * world)) :=
  σ ← for_each (λ p, send_ p dest) (weights nn_self) σ;
  Ok (nn_self, σ).

Definition module_get_ (nn_self : keras_module) (σ : heap * world)
    : result (keras_module * (heap * world)) :=
  σ ← for_each get_ (weights nn_self) σ;
  Ok (nn_self, σ).

(** Calling the method [name] of a module, looked up in the attribute
    table [Module] of the supertype: the two functions that
    [_hook_keras_module] installs run [module_send_] on the destinations
    and [module_get_], which takes no argument; what other attributes do
    when called is outside this model. *)
Definition call_method (Module : table) (name : string) (nn_self : keras_module)
    (args : list wref) (σ : heap * world) : result (keras_module * (heap * world)) :=
  method ← getattr Module name;
  match method with
  | Fn_module_send_ => module_send_ nn_self args σ
  | Fn_module_get_ =>
      match args with
      | [] => module_get_ nn_self σ
      | _ => Raise TypeError
      end
  | _ => Raise UndefinedBySpec
  end.

(** The payload that the parameter [p] holds locally, if any. *)
Definition local_data (h : heap) (p : tref) : option payload :=
  match h !! p with
  | Some {| child := Local data |} => Some data
  | _ => None
  end.

Definition points_to (h : heap) (p : tref) (w : wref) : Prop :=
  ∃ t k, h !! p = Some t ∧ child t = Pointer w k.
End Payload.

Arguments Local {payload} data.
Arguments Pointer {payload} location id_at_location.

(** *** The concrete scenarios: binary32 tensors *)

Definition float32 := spec_float.
Definition f32_add : float32 → float32 → float32 := SFadd 24 128.

(** Vectors of the same length are added element by element. *)
Definition f32_tensor_add (p q : list float32) : result (list float32) :=
  if bool_decide (length p = length q) then Ok (zip_with f32_add p q)
  else Raise UndefinedBySpec.

Definition f32_2 : float32 := S754_finite false 8388608 (-22).
Definition f32_3 : float32 := S754_finite false 12582912 (-22).
Definition f32_5 : float32 := S754_finite false 10485760 (-21).

Definition constant (data : list float32) : tensor (list float32) :=
  {| identity := Identity.fresh_instance; child := Local data |}.

End Proxy.

(** * Properties *)

(** Closed decidable goals are settled by evaluation. *)
Ltac by_compute := apply (bool_decide_unpack _); vm_compute; exact I.

(** ** Strings *)

Lemma startswith_app pre s : Str.startswith pre (pre +:+ s) = true.
Proof.
  induction pre as [|a pre IH]; simpl; [done|].
  by rewrite Ascii.eqb_refl.
Qed.

Lemma contains_app pre s : Str.contains pre (pre +:+ s) = true.
Proof.
  destruct pre as [|a pre]; destruct s; simpl; try done;
    rewrite ?Ascii.eqb_refl; rewrite ?startswith_app; done.
Qed.

Lemma elem_of_dir (t : table) (name : string) : name ∈ dir t ↔ is_Some (t !! name).
Proof.
  unfold dir. rewrite merge_sort_Permutation, elem_of_elements.
  apply elem_of_dom.
Qed.

Lemma string_length_app s1 s2 :
  String.length (s1 +:+ s2) = String.length s1 + String.length s2.
Proof. induction s1 as [|a s1 IH]; simpl; [done|]. by rewrite IH. Qed.

Lemma native_name_neq attr : native_name attr ≠ attr.
Proof.
  unfold native_name. intros H.
  apply (f_equal String.length) in H. rewrite string_length_app in H.
  simpl in H. lia.
Qed.

(** ** The module overloader *)

Lemma first_char_None (func : string) : Str.first_char func = None ↔ func = "".
Proof. by destruct func. Qed.

Lemma hook_decision_overload upper exclude ns func :
  Overloader.hook_decision upper exclude ns func = Overloader.Overload
  ↔ Overloader.code_eligible upper exclude ns func.
Proof.
  unfold Overloader.hook_decision, Overloader.code_eligible.
  case_bool_decide as Hex.
  { split; [done|]. intros (? & _); done. }
  destruct (Str.contains "__" func) eqn:Hdd.
  { split; [done|]. intros (_ & ? & _); done. }
  destruct (Str.first_char func) as [ch|] eqn:Hget.
  2:{ split; [done|]. intros (_ & _ & (ch & ? & _) & _); done. }
  destruct (Str.char_isupper upper ch) eqn:Hup.
  { split; [done|]. intros (_ & _ & (ch' & ? & ? & _) & _); congruence. }
  case_bool_decide as Hus.
  { split; [done|]. intros (_ & _ & (ch' & ? & _ & ?) & _); congruence. }
  destruct (Str.contains "native_" func) eqn:Hnat; simpl.
  { split; [done|]. intros (_ & _ & _ & ? & _); done. }
  case_bool_decide as Hal.
  { split; [done|]. intros (_ & _ & _ & _ & ?); done. }
  split; [|done]. intros _. repeat split; eauto.
Qed.

Lemma hook_decision_fails upper exclude ns func e :
  Overloader.hook_decision upper exclude ns func = Overloader.Fails e
  ↔ e = IndexError ∧ func = "" ∧ func ∉ exclude.
Proof.
  unfold Overloader.hook_decision.
  case_bool_decide as Hex; [split; [done|]; intros (_ & _ & ?); done|].
  destruct func as [|c func].
  - simpl. split; [intros [= <-]; done|intros (-> & _); done].
  - split; [|intros (_ & ? & _); done].
    destruct (Str.contains "__" (String c func)); [done|].
    unfold Str.first_char. repeat (case_match; try done).
Qed.

(** C7, as amended.  When the walk reaches a name, the overloader
    replaces it exactly when the name is not in the exclusion set, contains
    no double underscore anywhere, starts with a character that is neither
    an uppercase letter nor an underscore, does not contain [native_]
    anywhere, and has no [native_<name>] alias in the namespace as it is at
    that turn.  The empty name, unless excluded, raises [IndexError]; every
    other name is skipped and the namespace is left as it was. *)
Theorem overloader_replaces_exactly_eligible
    (upper : string → bool) (perform : table → string → table)
    (exclude : list string)
    (ns : table) (func : string) (funcs : list string) :
  (Overloader.hook_decision upper exclude ns func = Overloader.Overload
     ↔ Overloader.code_eligible upper exclude ns func)
  ∧ (Overloader.walk upper perform exclude (func :: funcs) ns =
       match Overloader.hook_decision upper exclude ns func with
       | Overloader.Overload => Overloader.walk upper perform exclude funcs (perform ns func)
       | Overloader.Skip => Overloader.walk upper perform exclude funcs ns
       | Overloader.Fails e => Raise e
       end)
  ∧ (∀ e, Overloader.hook_decision upper exclude ns func = Overloader.Fails e
          ↔ e = IndexError ∧ func = "" ∧ func ∉ exclude).
Proof.
  split; [apply hook_decision_overload|].
  split; [|intros e; apply hook_decision_fails].
  simpl. by destruct (Overloader.hook_decision upper exclude ns func).
Qed.

(** A capitalised name is skipped whether its first letter is in ASCII or
    not; for a letter outside ASCII the answer is the one of Python's
    Unicode database. *)
Lemma capitalised_names_are_skipped (upper : string → bool) (exclude : list string)
    (ns : table) :
  upper "É" = true →
  Overloader.hook_decision upper exclude ns "Éclair" = Overloader.Skip
  ∧ Overloader.hook_decision upper exclude ns "Tensor" = Overloader.Skip.
Proof.
  intros Hupper. unfold Overloader.hook_decision.
  split; case_bool_decide; try done.
  change (Str.first_char "Éclair") with (Some "É").
  change (Str.contains "__" "Éclair") with false. cbv iota.
  change (Str.char_isupper upper "É") with (upper "É"). by rewrite Hupper.
Qed.

(** C7, as stated, fails: a name that contains [native_] is skipped
    although no alias of it exists, and so is a name with a double
    underscore in the middle, which is not a dunder name. *)
Lemma overloader_skips_more_than_stated :
  let ns : table := {[ "native_foo" := Opaque "f"; "a__b" := Opaque "g" ]} in
  ¬ (Overloader.hook_decision Str.ascii_only [] ns "native_foo" = Overloader.Overload
       ↔ Overloader.spec_eligible Str.ascii_only [] ns "native_foo")
  ∧ ¬ (Overloader.hook_decision Str.ascii_only [] ns "a__b" = Overloader.Overload
         ↔ Overloader.spec_eligible Str.ascii_only [] ns "a__b").
Proof.
  intros ns. split.
  - intros [_ H]. assert (Overloader.spec_eligible Str.ascii_only [] ns "native_foo") as He.
    { repeat split; try done; try by_compute.
      intros ch [= <-]. done. }
    apply H in He. vm_compute in He. discriminate.
  - intros [_ H]. assert (Overloader.spec_eligible Str.ascii_only [] ns "a__b") as He.
    { repeat split; try done; try by_compute.
      intros ch [= <-]. done. }
    apply H in He. vm_compute in He. discriminate.
Qed.

(** ** Module names of hooked functions *)

Lemma tf_names_report_spec_module (attr : HookedFunc.func_attr) name names :
  HookedFunc._tf_api_names attr = Some (name :: names) →
  HookedFunc._keras_api_names attr = None →
  HookedFunc.reported_module attr = Ok (HookedFunc.spec_module name).
Proof.
  intros Htf Hk.
  unfold HookedFunc.reported_module, HookedFunc._get_hooked_func,
    HookedFunc.tf_branch, HookedFunc.spec_module.
  rewrite Htf. case_bool_decide as Hsub; simpl;
    unfold HookedFunc.keras_branch; simpl; rewrite Hk; simpl; done.
Qed.

Lemma keras_names_report_no_fallback (attr : HookedFunc.func_attr) name names :
  HookedFunc._tf_api_names attr = None →
  HookedFunc._keras_api_names attr = Some (name :: names) →
  HookedFunc.reported_module attr = Ok ("tensorflow." +:+ HookedFunc.submodule_of name).
Proof.
  intros Htf Hk.
  unfold HookedFunc.reported_module, HookedFunc._get_hooked_func, HookedFunc.tf_branch.
  rewrite Htf. simpl. unfold HookedFunc.keras_branch. rewrite Hk. done.
Qed.

(** Outside the names that keras exports: a first keras name without any
    submodule component gives the module ["tensorflow."], where the same
    name under [_tf_api_names] gives the root. *)
Lemma keras_name_without_submodule_misses_fallback :
  HookedFunc.reported_module
    {| HookedFunc._tf_api_names := None;
       HookedFunc._keras_api_names := Some ["Model"];
       HookedFunc.__module__ := "tensorflow.python.keras.engine.training" |}
    = Ok "tensorflow."
  ∧ HookedFunc.spec_module "Model" = "tensorflow"
  ∧ HookedFunc.reported_module
      {| HookedFunc._tf_api_names := Some ["Model"];
         HookedFunc._keras_api_names := None;
         HookedFunc.__module__ := "tensorflow.python.keras.engine.training" |}
      = Ok "tensorflow".
Proof. repeat split; reflexivity. Qed.

Lemma split_not_nil (sep : Ascii.ascii) (s : string) : Str.split sep s ≠ [].
Proof. destruct s as [|c s]; simpl; [done|]. repeat case_match; done. Qed.

Lemma split_app (sep : Ascii.ascii) (s1 s2 : string) :
  Str.split sep (s1 +:+ String sep s2) = (Str.split sep s1 ++ Str.split sep s2)%list.
Proof.
  induction s1 as [|c s1 IH]; simpl.
  { by rewrite Ascii.eqb_refl. }
  rewrite IH. destruct (Ascii.eqb c sep); [done|].
  pose proof (split_not_nil sep s1).
  destruct (Str.split sep s1); done.
Qed.





(** ** Identity properties *)

Section IdentityFacts.
Variable id_seq : nat → ident.
Import Identity.

Lemma run_keeps_id (l : list access) (self : instance) (i : ident) :
  _syft_id self = Some i →
  forallb (λ a, negb (writes_id a)) l = true →
  _syft_id (run id_seq l self).2 = Some i
  ∧ ∀ j, Saw_id j ∈ (run id_seq l self).1 → j = i.
Proof.
  revert self. induction l as [|a l IH]; intros self Hid Hl.
  { simpl. split; [done|]. intros j Hj. by apply elem_of_nil in Hj. }
  simpl in Hl. apply andb_prop in Hl as [Ha Hl]. simpl.
  destruct (step id_seq a self) as [o self'] eqn:Hstep.
  assert (_syft_id self' = Some i ∧ ∀ j, o = Saw_id j → j = i) as [Hid' Ho].
  { destruct a; simpl in Hstep, Ha; try done; unfold id_get, owner_get,
      is_wrapper_get in Hstep; rewrite ?Hid in Hstep;
      repeat case_match; simplify_eq; simpl; split; congruence. }
  specialize (IH self' Hid' Hl).
  destruct (run id_seq l self') as [os self''] eqn:Hrun. simpl in *.
  destruct IH as [IH1 IH2]. split; [done|].
  intros j Hj. apply elem_of_cons in Hj as [Hj|Hj]; eauto.
Qed.

Lemma run_keeps_owner (l : list access) (self : instance) (w : option wref) :
  _owner self = Some w →
  forallb (λ a, negb (writes_owner a)) l = true →
  _owner (run id_seq l self).2 = Some w
  ∧ ∀ w', Saw_owner w' ∈ (run id_seq l self).1 → w' = w.
Proof.
  revert self. induction l as [|a l IH]; intros self Hid Hl.
  { simpl. split; [done|]. intros j Hj. by apply elem_of_nil in Hj. }
  simpl in Hl. apply andb_prop in Hl as [Ha Hl]. simpl.
  destruct (step id_seq a self) as [o self'] eqn:Hstep.
  assert (_owner self' = Some w ∧ ∀ j, o = Saw_owner j → j = w) as [Hid' Ho].
  { destruct a; simpl in Hstep, Ha; try done; unfold id_get, owner_get,
      is_wrapper_get in Hstep; rewrite ?Hid in Hstep;
      repeat case_match; simplify_eq; simpl; split; congruence. }
  specialize (IH self' Hid' Hl).
  destruct (run id_seq l self') as [os self''] eqn:Hrun. simpl in *.
  destruct IH as [IH1 IH2]. split; [done|].
  intros j Hj. apply elem_of_cons in Hj as [Hj|Hj]; eauto.
Qed.

Lemma id_get_materializes (self : instance) (provider : nat) :
  _syft_id (id_get id_seq self provider).1.2 = Some (id_get id_seq self provider).1.1.
Proof. unfold id_get. by destruct (_syft_id self) eqn:H. Qed.

Lemma owner_get_materializes (self : instance) (lw : option wref) :
  _owner (owner_get lw self).2 = Some (owner_get lw self).1.
Proof. unfold owner_get. by destruct (_owner self) eqn:H. Qed.
End IdentityFacts.

(** C8.  On an instance that has no id yet, the first read of [id] takes
    the next value of the id provider; whatever accesses follow, as long as
    none of them is an assignment to [id], every later read of [id] returns
    the value of the first read, and after an assignment a read returns the
    assigned value.  Likewise the first read of [owner] defaults to the
    local worker of the hook, later reads return that same worker until
    [owner] is assigned, and after an assignment a read returns the assigned
    worker. *)
Theorem id_and_owner_stable_until_set (id_seq : nat → ident)
    (self : Identity.instance) (provider : nat) (local_worker : option wref)
    (l : list Identity.access) :
  let first_id := Identity.id_get id_seq self provider in
  let first_owner := Identity.owner_get local_worker self in
  (Identity._syft_id self = None →
     first_id.1.1 = id_seq provider ∧ first_id.2 = S provider)
  ∧ (forallb (λ a, negb (Identity.writes_id a)) l = true →
     ∀ j, Identity.Saw_id j ∈ (Identity.run id_seq l first_id.1.2).1 → j = first_id.1.1)
  ∧ (∀ j p, (Identity.id_get id_seq (Identity.id_set self j) p).1.1 = j)
  ∧ (Identity._owner self = None → first_owner.1 = local_worker)
  ∧ (forallb (λ a, negb (Identity.writes_owner a)) l = true →
     ∀ w, Identity.Saw_owner w ∈ (Identity.run id_seq l first_owner.2).1 → w = first_owner.1)
  ∧ (∀ w lw, (Identity.owner_get lw (Identity.owner_set self w)).1 = w).
Proof.
  intros first_id first_owner.
  split; [|split; [|split; [|split; [|split]]]].
  - unfold first_id, Identity.id_get. intros ->. done.
  - intros Hl. eapply run_keeps_id; [apply id_get_materializes|done].
  - done.
  - unfold first_owner, Identity.owner_get. intros ->. done.
  - intros Hl. eapply run_keeps_owner; [apply owner_get_materializes|done].
  - done.
Qed.

(** ** Method installation *)

Section MethodFacts.
Variable TensorFlowTensor : table.

Lemma add_methods_app (l1 l2 : list string) (t : table) :
  Install.add_methods TensorFlowTensor (l1 ++ l2)%list t =
  Install.add_methods TensorFlowTensor l1 t ≫= Install.add_methods TensorFlowTensor l2.
Proof.
  revert t. induction l1 as [|a l1 IH]; intros t; simpl; [done|].
  destruct (Install.add_method TensorFlowTensor t a) as [t'|e]; simpl; [apply IH|done].
Qed.

Lemma add_method_returns (t : table) (attr : string) :
  attr ∈ Install.exclude ∨ is_Some (TensorFlowTensor !! attr) →
  returns (Install.add_method TensorFlowTensor t attr).
Proof.
  intros H. unfold Install.add_method, returns.
  case_bool_decide as Hex; [eauto|].
  destruct H as [?|[m Hm]]; [done|].
  unfold getattr. rewrite Hm. simpl. eauto.
Qed.

Lemma add_methods_returns (attrs : list string) (t : table) :
  (∀ a, a ∈ attrs → a ∈ Install.exclude ∨ is_Some (TensorFlowTensor !! a)) →
  returns (Install.add_methods TensorFlowTensor attrs t).
Proof.
  revert t. induction attrs as [|a attrs IH]; intros t H; simpl.
  { by eexists. }
  destruct (add_method_returns t a) as [t' Ht'].
  { apply H. by left. }
  rewrite Ht'. simpl. apply IH. intros b Hb. apply H. by right.
Qed.

Lemma add_method_copies (t t' : table) (attr : string) :
  attr ∉ Install.exclude →
  Install.add_method TensorFlowTensor t attr = Ok t' →
  t' !! attr = TensorFlowTensor !! attr
  ∧ is_Some (TensorFlowTensor !! attr)
  ∧ (∀ native, t !! attr = Some native → t' !! native_name attr = Some native)
  ∧ (∀ k, k ≠ attr → k ≠ native_name attr → t' !! k = t !! k).
Proof.
  intros Hex. unfold Install.add_method.
  rewrite bool_decide_eq_false_2 by done.
  unfold getattr. destruct (TensorFlowTensor !! attr) as [m|] eqn:Hm; simpl; [|done].
  intros [= <-]. split; [by rewrite lookup_insert_eq|]. split; [eauto|].
  pose proof (native_name_neq attr) as Hne. split.
  - intros native Hn. rewrite Hn.
    rewrite lookup_insert_ne by done. by rewrite lookup_insert_eq.
  - intros k Hk1 Hk2. rewrite lookup_insert_ne by done.
    destruct (t !! attr); [by rewrite lookup_insert_ne|done].
Qed.
End MethodFacts.

(** C4.  While [_add_methods_from_native_tensor] runs over the attributes of
    the syft tensor type (a type whose attributes are those of
    [TensorFlowTensor], as at its one call site), at the turn of every
    attribute that is not in the exclusion list the attribute is copied onto
    the native type, and if the native type defines that name when the turn
    begins, the value it holds is stored under [native_<name>] by the same
    turn; the installation as a whole returns. *)
Theorem methods_copied_and_natives_aliased (TensorFlowTensor tensor_type syft_type : table)
    (pre post : list string) (attr : string) :
  syft_type ⊆ TensorFlowTensor →
  dir syft_type = (pre ++ attr :: post)%list →
  attr ∉ Install.exclude →
  ∃ before after method,
    Install.add_methods TensorFlowTensor pre tensor_type = Ok before
    ∧ Install.add_method TensorFlowTensor before attr = Ok after
    ∧ syft_type !! attr = Some method
    ∧ after !! attr = Some method
    ∧ (∀ native, before !! attr = Some native →
                 after !! native_name attr = Some native)
    ∧ Install._add_methods_from_native_tensor TensorFlowTensor tensor_type syft_type
      = Install.add_methods TensorFlowTensor post after
    ∧ returns (Install._add_methods_from_native_tensor TensorFlowTensor tensor_type
                 syft_type).
Proof.
  intros Hsub Hdir Hex.
  assert (∀ a, a ∈ dir syft_type → is_Some (TensorFlowTensor !! a)) as Hall.
  { intros a Ha. apply elem_of_dir in Ha as [v Hv].
    exists v. by eapply lookup_weaken. }
  destruct (add_methods_returns TensorFlowTensor pre tensor_type) as [before Hb].
  { intros a Ha. right. apply Hall. rewrite Hdir. set_solver. }
  assert (attr ∈ dir syft_type) as Hin by (rewrite Hdir; set_solver).
  destruct (add_method_returns TensorFlowTensor before attr) as [after Ha].
  { right. by apply Hall. }
  apply elem_of_dir in Hin as [method Hm].
  destruct (add_method_copies TensorFlowTensor before after attr Hex Ha)
    as (Hcopy & _ & Halias & _).
  exists before, after, method. repeat split; try done.
  - rewrite Hcopy. by eapply lookup_weaken.
  - unfold Install._add_methods_from_native_tensor. rewrite Hdir.
    rewrite add_methods_app, Hb. simpl. by rewrite Ha.
  - apply add_methods_returns. intros a Hin. right. by apply Hall.
Qed.

(** A tensor type with one native method that the syft type redefines. *)
Lemma methods_copied_and_natives_aliased_witness :
  let TensorFlowTensor : table := {[ "send" := Opaque "TensorFlowTensor.send";
                                     "__add__" := Opaque "TensorFlowTensor.__add__" ]} in
  let tensor_type : table := {[ "__add__" := Opaque "Tensor.__add__" ]} in
  ∃ before after method,
    Install.add_methods TensorFlowTensor [] tensor_type = Ok before
    ∧ Install.add_method TensorFlowTensor before "__add__" = Ok after
    ∧ TensorFlowTensor !! "__add__" = Some method
    ∧ after !! "__add__" = Some method
    ∧ (∀ native, before !! "__add__" = Some native →
                 after !! native_name "__add__" = Some native)
    ∧ Install._add_methods_from_native_tensor TensorFlowTensor tensor_type
        TensorFlowTensor
      = Install.add_methods TensorFlowTensor ["send"] after
    ∧ returns (Install._add_methods_from_native_tensor TensorFlowTensor tensor_type
                 TensorFlowTensor).
Proof.
  intros TensorFlowTensor tensor_type.
  apply (methods_copied_and_natives_aliased TensorFlowTensor tensor_type
           TensorFlowTensor [] ["send"] "__add__").
  - reflexivity.
  - vm_compute. reflexivity.
  - by_compute.
Defined.

(** ** The replaced constructor *)

Lemma registration_tables (hook_self : href) (tensor_type : table) (is_tensor : bool)
    (init : value) :
  tensor_type !! "__init__" = Some init →
  ∃ tt, Install._add_registration_to___init__ hook_self tensor_type is_tensor = Ok tt
    ∧ tt !! "native___init__"
      = Some (default init (tensor_type !! "native___init__"))
    ∧ tt !! "__init__" = Some (Closure_new___init__ hook_self is_tensor)
    ∧ (∀ k, k ≠ "__init__" → k ≠ "native___init__" → tt !! k = tensor_type !! k).
Proof.
  intros Hinit. unfold Install._add_registration_to___init__.
  case_bool_decide as Halias.
  - apply elem_of_dir in Halias as [alias Halias]. simpl.
    eexists. split; [done|]. rewrite Halias. simpl.
    split; [by rewrite lookup_insert_ne|].
    split; [by rewrite lookup_insert_eq|].
    intros k Hk _. by rewrite lookup_insert_ne.
  - assert (tensor_type !! "native___init__" = None) as Hnone.
    { destruct (tensor_type !! "native___init__") eqn:E; [|done].
      exfalso. apply Halias, elem_of_dir. eauto. }
    unfold getattr. rewrite Hinit. simpl.
    eexists. split; [done|]. rewrite Hnone. simpl.
    split; [rewrite lookup_insert_ne by done; by rewrite lookup_insert_eq|].
    split; [by rewrite lookup_insert_eq|].
    intros k Hk1 Hk2. by rewrite !lookup_insert_ne.
Qed.



(** ** Constructing the hook *)

Section HookFacts.
Variable TensorFlowTensor : table.
Variable upper : string → bool.
Variable perform : table → string → table.
Variable exclude : list string.

Lemma init_already_hooked (self : href) (lw : option wref) (is_client : bool)
    (s : Hook.process) :
  Hook.tf_hooked s = true →
  ∃ s', Hook.__init__ TensorFlowTensor upper perform exclude self lw is_client s = Ok s'
    ∧ Hook.tf_hooked s' = true
    ∧ Hook.tf_hook s' = Some self
    ∧ Hook.syft_tensorflow s' = Some self
    ∧ Hook.syft_framework s' = Some self
    ∧ Hook.get_local_worker self s' = Hook.syft_local_worker s
    ∧ Hook.Tensor s' = Hook.Tensor s
    ∧ Hook.tensorflow_modules s' = Hook.tensorflow_modules s
    ∧ Hook.tf_Module s' = Hook.tf_Module s
    ∧ Hook.workers s' = Hook.workers s
    ∧ Hook.syft_local_worker s' = Hook.syft_local_worker s
    ∧ Hook.syft_hook s' = Hook.syft_hook s
    ∧ Hook.warnings s' = (Hook.warnings s ++ [Hook.already_hooked_msg])%list.
Proof.
  intros Hhooked. unfold Hook.__init__. simpl. rewrite Hhooked.
  eexists. split; [reflexivity|]. simpl.
  repeat split; try done.
  unfold Hook.get_local_worker. simpl. by rewrite lookup_insert_eq.
Qed.

Lemma install_marker (self : href) (is_client : bool) (s s' : Hook.process) :
  Hook.install TensorFlowTensor upper perform exclude self is_client s = Ok s' →
  Hook.tf_hooked s' = Hook.tf_hooked s ∧ Hook.warnings s' = Hook.warnings s.
Proof.
  unfold Hook.install.
  destruct (Hook.get_local_worker self s) as [w|]; simpl;
    destruct (Install._hook_native_tensor _ _ _ _) as [tensor|]; simpl; try done;
    destruct (Overloader._hook_tensorflow_module _ _ _ _) as [modules|]; simpl; try done;
    intros [= <-]; done.
Qed.

Lemma init_sets_marker (self : href) (lw : option wref) (is_client : bool)
    (s s' : Hook.process) :
  Hook.__init__ TensorFlowTensor upper perform exclude self lw is_client s = Ok s' →
  Hook.tf_hooked s' = true
  ∧ (Hook.tf_hooked s = false → Hook.warnings s' = Hook.warnings s).
Proof.
  destruct (Hook.tf_hooked s) eqn:Hhooked.
  - destruct (init_already_hooked self lw is_client s Hhooked) as (s1 & -> & H1 & _).
    intros [= <-]. done.
  - unfold Hook.__init__. simpl. rewrite Hhooked.
    intros Hinst. apply install_marker in Hinst as [H1 H2]. simpl in *. done.
Qed.
End HookFacts.

(** C2.  When a first construction of the hook has returned, the marker is
    set; a second construction on the same framework module then returns
    normally, leaves the attribute table of the native tensor type (and the
    namespaces and the module supertype) exactly as the first left them, and
    logs exactly one warning; the first construction, on a module without the
    marker, logs none. *)
Theorem second_hook_is_skipped (TensorFlowTensor : table)
    (upper : string → bool) (perform : table → string → table)
    (exclude : list string)
    (self1 self2 : href) (lw1 lw2 : option wref) (is_client1 is_client2 : bool)
    (s0 s1 : Hook.process) :
  Hook.__init__ TensorFlowTensor upper perform exclude self1 lw1 is_client1 s0 = Ok s1 →
  ∃ s2,
    Hook.__init__ TensorFlowTensor upper perform exclude self2 lw2 is_client2 s1 = Ok s2
    ∧ Hook.tf_hooked s1 = true
    ∧ Hook.Tensor s2 = Hook.Tensor s1
    ∧ Hook.tensorflow_modules s2 = Hook.tensorflow_modules s1
    ∧ Hook.tf_Module s2 = Hook.tf_Module s1
    ∧ Hook.warnings s2 = (Hook.warnings s1 ++ [Hook.already_hooked_msg])%list
    ∧ (Hook.tf_hooked s0 = false → Hook.warnings s1 = Hook.warnings s0).
Proof.
  intros Hfirst.
  apply init_sets_marker in Hfirst as [Hmarker Hquiet].
  destruct (init_already_hooked TensorFlowTensor upper perform exclude self2 lw2
              is_client2 s1 Hmarker)
    as (s2 & Hsecond & _ & _ & _ & _ & _ & Ht & Hm & HM & _ & _ & _ & Hw).
  exists s2. repeat split; done.
Qed.

(** C10.  On a framework module that carries the marker, constructing a
    hook returns after rebinding [tensorflow.hook], [syft.tensorflow] and
    [syft.framework] to the new instance and setting the local worker of the
    new instance to the global [syft.local_worker]; the attribute table of
    the native tensor type, the worker objects and the global local worker
    are as before. *)
Theorem skipped_hook_still_rebinds_globals (TensorFlowTensor : table)
    (upper : string → bool) (perform : table → string → table)
    (exclude : list string)
    (self : href) (lw : option wref) (is_client : bool) (s : Hook.process) :
  Hook.tf_hooked s = true →
  ∃ s',
    Hook.__init__ TensorFlowTensor upper perform exclude self lw is_client s = Ok s'
    ∧ Hook.tf_hook s' = Some self
    ∧ Hook.syft_tensorflow s' = Some self
    ∧ Hook.syft_framework s' = Some self
    ∧ Hook.get_local_worker self s' = Hook.syft_local_worker s
    ∧ Hook.Tensor s' = Hook.Tensor s
    ∧ Hook.workers s' = Hook.workers s
    ∧ Hook.syft_local_worker s' = Hook.syft_local_worker s.
Proof.
  intros Hhooked.
  destruct (init_already_hooked TensorFlowTensor upper perform exclude self lw
              is_client s Hhooked)
    as (s' & Hinit & _ & H1 & H2 & H3 & H4 & H5 & _ & _ & H6 & H7 & _).
  exists s'. repeat split; done.
Qed.

(** Two constructions in a row on a small framework. *)
Lemma second_hook_is_skipped_witness :
  let TensorFlowTensor : table :=
    {[ "send" := Opaque "TensorFlowTensor.send";
       "__add__" := Opaque "TensorFlowTensor.__add__" ]} in
  let tensor : table :=
    {[ "__init__" := Opaque "Tensor.__init__"; "shape" := Opaque "Tensor.shape";
       "__add__" := Opaque "Tensor.__add__" ]} in
  let s0 :=
    Hook.unhooked tensor {[ "__call__" := Opaque "Module.__call__" ]}
      [("tensorflow", {[ "add" := Opaque "tf.add"; "Tensor" := Opaque "tf.Tensor" ]})] in
  let init self s :=
    Hook.__init__ TensorFlowTensor Str.ascii_only Overloader.alias_and_replace [] self None true s in
  let s1 := match init 0 s0 with Ok s => s | Raise _ => s0 end in
  ∃ s2,
    init 1 s1 = Ok s2
    ∧ Hook.tf_hooked s1 = true
    ∧ Hook.Tensor s2 = Hook.Tensor s1
    ∧ Hook.tensorflow_modules s2 = Hook.tensorflow_modules s1
    ∧ Hook.tf_Module s2 = Hook.tf_Module s1
    ∧ Hook.warnings s2 = (Hook.warnings s1 ++ [Hook.already_hooked_msg])%list
    ∧ (Hook.tf_hooked s0 = false → Hook.warnings s1 = Hook.warnings s0).
Proof.
  intros TensorFlowTensor tensor s0 init s1.
  apply (second_hook_is_skipped TensorFlowTensor Str.ascii_only
           Overloader.alias_and_replace []
           0 1 None None true true s0 s1).
  vm_compute. reflexivity.
Defined.

(** A construction on a framework that already carries the marker. *)
Lemma skipped_hook_still_rebinds_globals_witness :
  let tensor : table := {[ "__init__" := Opaque "Tensor.__init__" ]} in
  let s := Hook.set_syft_local_worker (Some 3)
             (Hook.set_tf_hooked true (Hook.unhooked tensor ∅ [])) in
  ∃ s',
    Hook.__init__ ∅ Str.ascii_only Overloader.alias_and_replace [] 5 None true s = Ok s'
    ∧ Hook.tf_hook s' = Some 5
    ∧ Hook.syft_tensorflow s' = Some 5
    ∧ Hook.syft_framework s' = Some 5
    ∧ Hook.get_local_worker 5 s' = Hook.syft_local_worker s
    ∧ Hook.Tensor s' = Hook.Tensor s
    ∧ Hook.workers s' = Hook.workers s
    ∧ Hook.syft_local_worker s' = Hook.syft_local_worker s.
Proof.
  intros tensor s.
  apply (skipped_hook_still_rebinds_globals ∅ Str.ascii_only
           Overloader.alias_and_replace []
           5 None true s).
  reflexivity.
Defined.

(** ** Sending and getting tensors *)

Arguments Proxy.identity {payload} _.
Arguments Proxy.child {payload} _.
Arguments Proxy.with_child {payload} _ _ _.
Arguments Proxy.send {payload} _ _ _.
Arguments Proxy.get {payload} _ _.
Arguments Proxy.send_get {payload} _ _ _.
Arguments Proxy.send_ {payload} _ _ _.
Arguments Proxy.get_ {payload} _ _.
Arguments Proxy.for_each {payload} _ _ _.
Arguments Proxy.module_send_ {payload} _ _ _.
Arguments Proxy.module_get_ {payload} _ _.
Arguments Proxy.local_data {payload} _ _.
Arguments Proxy.points_to {payload} _ _ _.
Arguments Proxy.register {payload} _ _.
Arguments Proxy.retrieve {payload} _ _.

Section ProxyFacts.
Context {payload : Type}.
Implicit Types (t : Proxy.tensor payload) (W : Proxy.world payload)
  (h : Proxy.heap payload) (objects : gmap ident payload).

Lemma register_fresh (data : payload) objects :
  objects !! (Proxy.register data objects).1 = None
  ∧ (Proxy.register data objects).2 !! (Proxy.register data objects).1 = Some data
  ∧ objects ⊆ (Proxy.register data objects).2.
Proof.
  unfold Proxy.register. simpl.
  assert (objects !! fresh (dom objects) = None) as Hfresh.
  { apply not_elem_of_dom. apply is_fresh. }
  split; [done|]. split; [by rewrite lookup_insert_eq|].
  by apply insert_subseteq.
Qed.

Lemma send_local t (data : payload) (w : wref) W objects :
  Proxy.child t = Proxy.Local data →
  W !! w = Some objects →
  Proxy.send t w W =
    Ok (Proxy.with_child t true (Proxy.Pointer w (Proxy.register data objects).1),
        <[w := (Proxy.register data objects).2]> W).
Proof. intros Hc Hw. unfold Proxy.send. by rewrite Hc, Hw. Qed.

Lemma get_pointer t (data : payload) (w : wref) (k : ident) W objects :
  Proxy.child t = Proxy.Pointer w k →
  W !! w = Some objects →
  objects !! k = Some data →
  Proxy.get t W = Ok (Proxy.with_child t false (Proxy.Local data), W).
Proof.
  intros Hc Hw Hk. unfold Proxy.get. rewrite Hc, Hw.
  unfold Proxy.retrieve. by rewrite Hk.
Qed.
End ProxyFacts.

(** C1.  A tensor that holds local data, sent to a reachable worker and
    retrieved, holds the very same data again as a local child, with
    [is_wrapper] false and with the id and the owner it had. *)
Theorem send_get_round_trip {payload : Type} (t : Proxy.tensor payload)
    (data : payload) (w : wref) (W : Proxy.world payload) :
  Proxy.child t = Proxy.Local data →
  is_Some (W !! w) →
  ∃ t' W',
    Proxy.send_get t w W = Ok (t', W')
    ∧ Proxy.child t' = Proxy.Local data
    ∧ Identity._is_wrapper (Proxy.identity t') = Some false
    ∧ Identity._syft_id (Proxy.identity t') = Identity._syft_id (Proxy.identity t)
    ∧ Identity._owner (Proxy.identity t') = Identity._owner (Proxy.identity t).
Proof.
  intros Hc [objects Hw].
  destruct (register_fresh data objects) as (_ & Hk & _).
  unfold Proxy.send_get. rewrite (send_local t data w W objects Hc Hw). simpl.
  rewrite (get_pointer _ data w (Proxy.register data objects).1 _
             (Proxy.register data objects).2);
    [| reflexivity | unfold Proxy.world in *; apply lookup_insert_eq | exact Hk].
  eexists _, _. split; [reflexivity|]. done.
Qed.

(** The scalar 2.0, sent to a worker and retrieved. *)
Lemma send_get_round_trip_witness :
  let W : Proxy.world (list Proxy.float32) := {[ 1 := ∅ ]} in
  ∃ t' W',
    Proxy.send_get (Proxy.constant [Proxy.f32_2]) 1 W = Ok (t', W')
    ∧ Proxy.child t' = Proxy.Local [Proxy.f32_2]
    ∧ Identity._is_wrapper (Proxy.identity t') = Some false
    ∧ Identity._syft_id (Proxy.identity t')
      = Identity._syft_id (Proxy.identity (Proxy.constant [Proxy.f32_2]))
    ∧ Identity._owner (Proxy.identity t')
      = Identity._owner (Proxy.identity (Proxy.constant [Proxy.f32_2])).
Proof.
  intros W.
  apply (send_get_round_trip (Proxy.constant [Proxy.f32_2]) [Proxy.f32_2] 1 W).
  - reflexivity.
  - exists ∅. reflexivity.
Defined.

(** ** Adding two tensors held by one worker *)

Arguments Proxy.__add__ {payload} _ _ _ _.
Arguments Proxy.remote_add {payload} _ _ _ _ _.
Arguments Proxy.execute {payload} _ _ _.
Arguments Proxy.result_of {payload} _ _ _.

(** C3.  For two tensors that hold local data, sending both to one
    reachable worker, adding the two pointers and retrieving the sum gives
    a local child with the payload that the native addition gives on the
    two payloads, which is also the child of the sum computed locally; when
    the native addition raises, both computations raise the same error. *)
Theorem remote_add_matches_local {payload : Type}
    (add : payload → payload → result payload) (a b : Proxy.tensor payload)
    (p q : payload) (w : wref) (W : Proxy.world payload) :
  Proxy.child a = Proxy.Local p →
  Proxy.child b = Proxy.Local q →
  is_Some (W !! w) →
  match add p q with
  | Ok r =>
      ∃ z W' z_local,
        Proxy.remote_add add a b w W = Ok (z, W')
        ∧ Proxy.__add__ add a b W = Ok (z_local, W)
        ∧ Proxy.child z = Proxy.Local r
        ∧ Proxy.child z_local = Proxy.Local r
  | Raise e =>
      Proxy.remote_add add a b w W = Raise e
      ∧ Proxy.__add__ add a b W = Raise e
  end.
Proof.
  intros Ha Hb [objects Hw].
  unfold Proxy.remote_add.
  rewrite (send_local a p w W objects Ha Hw). cbn -[Proxy.register].
  destruct (register_fresh p objects) as (Hk1 & Hp & _).
  set (k1 := (Proxy.register p objects).1) in *.
  set (o1 := (Proxy.register p objects).2) in *.
  assert ((<[w := o1]> W : Proxy.world payload) !! w = Some o1) as Hw1.
  { unfold Proxy.world. apply lookup_insert_eq. }
  rewrite (send_local b q w _ o1 Hb Hw1). cbn -[Proxy.register].
  destruct (register_fresh q o1) as (Hk2 & Hq & Hsub).
  set (k2 := (Proxy.register q o1).1) in *.
  set (o2 := (Proxy.register q o1).2) in *.
  assert (o2 !! k1 = Some p) as Hp2 by (by eapply lookup_weaken).
  unfold Proxy.__add__ at 1. cbn -[Proxy.register].
  rewrite bool_decide_eq_true_2 by done.
  unfold Proxy.world. rewrite lookup_insert_eq.
  unfold Proxy.execute. cbn -[Proxy.register]. unfold Proxy.retrieve.
  rewrite Hp2, Hq. cbn -[Proxy.register].
  unfold Proxy.__add__. rewrite Ha, Hb.
  destruct (add p q) as [r|e]; cbn -[Proxy.register]; [|done].
  destruct (register_fresh r o2) as (_ & Hr & _).
  eexists _, _, _. split.
  - eapply get_pointer; [reflexivity| |exact Hr].
    unfold Proxy.world. apply lookup_insert_eq.
  - done.
Qed.

(** The vectors [3.0, 3.0] and [2.0, 2.0]: the sum is [5.0, 5.0]. *)
Lemma remote_add_matches_local_witness :
  let W : Proxy.world (list Proxy.float32) := {[ 1 := ∅ ]} in
  let x := Proxy.constant [Proxy.f32_3; Proxy.f32_3] in
  let y := Proxy.constant [Proxy.f32_2; Proxy.f32_2] in
  ∃ z W' z_local,
    Proxy.remote_add Proxy.f32_tensor_add x y 1 W = Ok (z, W')
    ∧ Proxy.__add__ Proxy.f32_tensor_add x y W = Ok (z_local, W)
    ∧ Proxy.child z = Proxy.Local [Proxy.f32_5; Proxy.f32_5]
    ∧ Proxy.child z_local = Proxy.Local [Proxy.f32_5; Proxy.f32_5].
Proof.
  intros W x y.
  apply (remote_add_matches_local Proxy.f32_tensor_add x y
           [Proxy.f32_3; Proxy.f32_3] [Proxy.f32_2; Proxy.f32_2] 1 W).
  - reflexivity.
  - reflexivity.
  - exists ∅. reflexivity.
Defined.

(** ** Sending and getting the weights of a module *)

Section ModuleFacts.
Context {payload : Type}.
Implicit Types (t : Proxy.tensor payload) (W : Proxy.world payload)
  (h : Proxy.heap payload) (objects : gmap ident payload).

Lemma local_data_Some h (p : Proxy.tref) (data : payload) :
  Proxy.local_data h p = Some data ↔
  ∃ t, h !! p = Some t ∧ Proxy.child t = Proxy.Local data.
Proof.
  unfold Proxy.local_data. split.
  - destruct (h !! p) as [[i [d|l k]]|]; try done. intros [= ->]. eauto.
  - intros (t & -> & Hc). destruct t as [i c]. simpl in Hc. by subst.
Qed.

Lemma send_each (w : wref) (ps : list Proxy.tref) h W objects :
  NoDup ps →
  W !! w = Some objects →
  (∀ p, p ∈ ps → is_Some (Proxy.local_data h p)) →
  ∃ h1 W1 objects1,
    Proxy.for_each (λ p, Proxy.send_ p [w]) ps (h, W) = Ok (h1, W1)
    ∧ W1 !! w = Some objects1
    ∧ objects ⊆ objects1
    ∧ (∀ p, p ∉ ps → h1 !! p = h !! p)
    ∧ (∀ p t data, p ∈ ps → h !! p = Some t → Proxy.child t = Proxy.Local data →
         ∃ k, h1 !! p = Some (Proxy.with_child t true (Proxy.Pointer w k))
              ∧ objects1 !! k = Some data).
Proof.
  intros Hnd. revert h W objects.
  induction Hnd as [|p ps Hp Hnd IH]; intros h W objects Hw Hloc.
  { exists h, W, objects. simpl. repeat split; try done.
    intros p t data Hin. by apply elem_of_nil in Hin. }
  destruct (Hloc p) as [data Hdata]; [by left|].
  apply local_data_Some in Hdata as (t & Ht & Hc).
  destruct (register_fresh data objects) as (Hfresh & Hk & Hsub).
  set (k := (Proxy.register data objects).1) in *.
  set (o1 := (Proxy.register data objects).2) in *.
  set (t1 := Proxy.with_child t true (Proxy.Pointer w k)).
  assert (Proxy.send_ p [w] (h, W) = Ok (<[p := t1]> h, <[w := o1]> W)) as Hsend.
  { unfold Proxy.send_. cbn -[Proxy.register]. unfold Proxy.heap in *. rewrite Ht.
    by rewrite (send_local t data w W objects Hc Hw). }
  destruct (IH (<[p := t1]> h) (<[w := o1]> W) o1) as
    (h1 & W1 & objects1 & Hrun & Hw1 & Hsub1 & Hframe & Hsent).
  { unfold Proxy.world. apply lookup_insert_eq. }
  { intros p' Hin. destruct (Hloc p') as [d Hd]; [by right|].
    exists d. unfold Proxy.local_data, Proxy.heap in *.
    rewrite lookup_insert_ne; [done|]. intros ->. done. }
  exists h1, W1, objects1. split.
  { cbn -[Proxy.register]. rewrite Hsend. exact Hrun. }
  split; [done|]. split; [by etrans|]. split.
  - intros p' Hnin. apply not_elem_of_cons in Hnin as [Hne Hnin].
    rewrite (Hframe p' Hnin). unfold Proxy.heap. by rewrite lookup_insert_ne.
  - intros p' t' data' Hin Ht' Hc'. apply elem_of_cons in Hin as [->|Hin].
    + unfold Proxy.heap in *. rewrite Ht in Ht'. injection Ht' as <-.
      rewrite Hc in Hc'. injection Hc' as <-.
      exists k. split.
      * rewrite (Hframe p Hp). by rewrite lookup_insert_eq.
      * by eapply lookup_weaken.
    + apply (Hsent p' t' data' Hin); [|done].
      unfold Proxy.heap in *. rewrite lookup_insert_ne; [done|]. intros ->. done.
Qed.

Lemma get_each (w : wref) (ps : list Proxy.tref) h W objects :
  NoDup ps →
  W !! w = Some objects →
  (∀ p, p ∈ ps → ∃ t k data, h !! p = Some t ∧ Proxy.child t = Proxy.Pointer w k
                             ∧ objects !! k = Some data) →
  ∃ h2,
    Proxy.for_each Proxy.get_ ps (h, W) = Ok (h2, W)
    ∧ (∀ p, p ∉ ps → h2 !! p = h !! p)
    ∧ (∀ p t k data, p ∈ ps → h !! p = Some t → Proxy.child t = Proxy.Pointer w k →
         objects !! k = Some data →
         h2 !! p = Some (Proxy.with_child t false (Proxy.Local data))).
Proof.
  intros Hnd. revert h.
  induction Hnd as [|p ps Hp Hnd IH]; intros h Hw Hptr.
  { exists h. simpl. repeat split; try done.
    intros p t k data Hin. by apply elem_of_nil in Hin. }
  destruct (Hptr p) as (t & k & data & Ht & Hc & Hk); [by left|].
  set (t1 := Proxy.with_child t false (Proxy.Local data)).
  assert (Proxy.get_ p (h, W) = Ok (<[p := t1]> h, W)) as Hget.
  { unfold Proxy.get_. simpl. unfold Proxy.heap in *. rewrite Ht.
    by rewrite (get_pointer t data w k W objects Hc Hw Hk). }
  destruct (IH (<[p := t1]> h) Hw) as (h2 & Hrun & Hframe & Hgot).
  { intros p' Hin. destruct (Hptr p') as (t' & k' & d' & Ht' & Hc' & Hk'); [by right|].
    exists t', k', d'. split; [|done].
    unfold Proxy.heap in *. rewrite lookup_insert_ne; [done|]. intros ->. done. }
  exists h2. split.
  { simpl. rewrite Hget. exact Hrun. }
  split.
  - intros p' Hnin. apply not_elem_of_cons in Hnin as [Hne Hnin].
    rewrite (Hframe p' Hnin). unfold Proxy.heap. by rewrite lookup_insert_ne.
  - intros p' t' k' data' Hin Ht' Hc' Hk'. apply elem_of_cons in Hin as [->|Hin].
    + unfold Proxy.heap in *. rewrite Ht in Ht'. injection Ht' as <-.
      rewrite Hc in Hc'. injection Hc' as <-. rewrite Hk in Hk'. injection Hk' as <-.
      rewrite (Hframe p Hp). by rewrite lookup_insert_eq.
    + apply (Hgot p' t' k' data' Hin); [|done..].
      unfold Proxy.heap in *. rewrite lookup_insert_ne; [done|]. intros ->. done.
Qed.
End ModuleFacts.

Lemma module_send_get_round_trip {payload : Type} (nn_self : Proxy.keras_module)
    (w : wref) (h : Proxy.heap payload) (W : Proxy.world payload) :
  NoDup (Proxy.weights nn_self) →
  (∀ p, p ∈ Proxy.weights nn_self → is_Some (Proxy.local_data h p)) →
  is_Some (W !! w) →
  ∃ h1 W1 h2 W2,
    Proxy.module_send_ nn_self [w] (h, W) = Ok (nn_self, (h1, W1))
    ∧ (∀ p, p ∈ Proxy.weights nn_self → Proxy.points_to h1 p w)
    ∧ Proxy.module_get_ nn_self (h1, W1) = Ok (nn_self, (h2, W2))
    ∧ (∀ p, p ∈ Proxy.weights nn_self → Proxy.local_data h2 p = Proxy.local_data h p)
    ∧ (∀ p, p ∉ Proxy.weights nn_self → h2 !! p = h !! p).
Proof.
  intros Hnd Hloc [objects Hw].
  destruct (send_each w (Proxy.weights nn_self) h W objects Hnd Hw Hloc)
    as (h1 & W1 & objects1 & Hsend & Hw1 & _ & Hframe1 & Hsent).
  assert (∀ p, p ∈ Proxy.weights nn_self →
            ∃ t k data, h1 !! p = Some t ∧ Proxy.child t = Proxy.Pointer w k
                        ∧ objects1 !! k = Some data
                        ∧ Proxy.local_data h p = Some data) as Hptr.
  { intros p Hin. destruct (Hloc p Hin) as [data Hdata].
    pose proof Hdata as Hd. apply local_data_Some in Hd as (t & Ht & Hc).
    destruct (Hsent p t data Hin Ht Hc) as (k & Hk1 & Hk2).
    eexists _, k, data. split; [exact Hk1|]. done. }
  destruct (get_each w (Proxy.weights nn_self) h1 W1 objects1 Hnd Hw1)
    as (h2 & Hget & Hframe2 & Hgot).
  { intros p Hin. destruct (Hptr p Hin) as (t & k & data & ? & ? & ? & _). eauto 6. }
  exists h1, W1, h2, W1. split.
  { unfold Proxy.module_send_. by rewrite Hsend. }
  split.
  { intros p Hin. destruct (Hptr p Hin) as (t & k & data & ? & ? & _).
    by exists t, k. }
  split.
  { unfold Proxy.module_get_. by rewrite Hget. }
  split.
  - intros p Hin. destruct (Hptr p Hin) as (t & k & data & Ht & Hc & Hk & Hd).
    rewrite Hd. apply local_data_Some.
    eexists. split; [exact (Hgot p t k data Hin Ht Hc Hk)|done].
  - intros p Hnin. by rewrite (Hframe2 p Hnin), (Hframe1 p Hnin).
Qed.

Arguments Proxy.call_method {payload} _ _ _ _ _.

(** C6.  After [_hook_keras_module], the module supertype holds
    [module_send_] under [send] and [send_] and [module_get_] under [get] and
    [get_], whatever it held before.  For a module whose weights are
    distinct tensor objects holding local data, and a reachable worker:
    calling [send] or [send_] with the worker sends every weight in place,
    so that each one holds a Pointer to that worker, and returns the module
    itself; calling [get] or [get_] then retrieves every weight in place, so
    that each one holds again the local data it held before the send, and
    returns the module itself. *)
Theorem module_gains_send_and_get {payload : Type} (Module : table)
    (nn_self : Proxy.keras_module) (w : wref) (h : Proxy.heap payload)
    (W : Proxy.world payload) (send get : string) :
  NoDup (Proxy.weights nn_self) →
  (∀ p, p ∈ Proxy.weights nn_self → is_Some (Proxy.local_data h p)) →
  is_Some (W !! w) →
  send ∈ ["send"; "send_"] →
  get ∈ ["get"; "get_"] →
  let Module' := Install._hook_keras_module Module in
  Module' !! "send" = Some Fn_module_send_
  ∧ Module' !! "send_" = Some Fn_module_send_
  ∧ Module' !! "get" = Some Fn_module_get_
  ∧ Module' !! "get_" = Some Fn_module_get_
  ∧ ∃ h1 W1 h2 W2,
      Proxy.call_method Module' send nn_self [w] (h, W) = Ok (nn_self, (h1, W1))
      ∧ (∀ p, p ∈ Proxy.weights nn_self → Proxy.points_to h1 p w)
      ∧ Proxy.call_method Module' get nn_self [] (h1, W1) = Ok (nn_self, (h2, W2))
      ∧ (∀ p, p ∈ Proxy.weights nn_self →
              Proxy.local_data h2 p = Proxy.local_data h p)
      ∧ (∀ p, p ∉ Proxy.weights nn_self → h2 !! p = h !! p).
Proof.
  intros Hnd Hloc Hw Hsend Hget Module'.
  assert (Module' !! "send" = Some Fn_module_send_
          ∧ Module' !! "send_" = Some Fn_module_send_
          ∧ Module' !! "get" = Some Fn_module_get_
          ∧ Module' !! "get_" = Some Fn_module_get_) as (Hs & Hs_ & Hg & Hg_).
  { unfold Module', Install._hook_keras_module.
    repeat split;
      repeat (first [rewrite lookup_insert_eq; reflexivity
                    |rewrite lookup_insert_ne by done]). }
  repeat (split; [done|]).
  destruct (module_send_get_round_trip nn_self w h W Hnd Hloc Hw)
    as (h1 & W1 & h2 & W2 & Hsent & Hptr & Hgot & Hdata & Hframe).
  exists h1, W1, h2, W2.
  assert (Module' !! send = Some Fn_module_send_) as Hsend'.
  { apply elem_of_cons in Hsend as [->|Hsend]; [done|].
    apply elem_of_cons in Hsend as [->|Hsend]; [done|].
    by apply elem_of_nil in Hsend. }
  assert (Module' !! get = Some Fn_module_get_) as Hget'.
  { apply elem_of_cons in Hget as [->|Hget]; [done|].
    apply elem_of_cons in Hget as [->|Hget]; [done|].
    by apply elem_of_nil in Hget. }
  unfold Proxy.call_method, getattr. rewrite Hsend', Hget'. simpl.
  repeat split; done.
Qed.

(** A module with two weights, sent through [send] and retrieved through
    [get]. *)
Lemma module_gains_send_and_get_witness :
  let Module : table := {[ "__call__" := Opaque "Module.__call__" ]} in
  let nn_self := {| Proxy.weights := [0; 1] |} in
  let h : Proxy.heap (list Proxy.float32) :=
    {[ 0 := Proxy.constant [Proxy.f32_2]; 1 := Proxy.constant [Proxy.f32_3; Proxy.f32_5] ]} in
  let W : Proxy.world (list Proxy.float32) := {[ 7 := ∅ ]} in
  let Module' := Install._hook_keras_module Module in
  Module' !! "send" = Some Fn_module_send_
  ∧ Module' !! "send_" = Some Fn_module_send_
  ∧ Module' !! "get" = Some Fn_module_get_
  ∧ Module' !! "get_" = Some Fn_module_get_
  ∧ ∃ h1 W1 h2 W2,
      Proxy.call_method Module' "send" nn_self [7] (h, W) = Ok (nn_self, (h1, W1))
      ∧ (∀ p, p ∈ Proxy.weights nn_self → Proxy.points_to h1 p 7)
      ∧ Proxy.call_method Module' "get" nn_self [] (h1, W1) = Ok (nn_self, (h2, W2))
      ∧ (∀ p, p ∈ Proxy.weights nn_self →
              Proxy.local_data h2 p = Proxy.local_data h p)
      ∧ (∀ p, p ∉ Proxy.weights nn_self → h2 !! p = h !! p).
Proof.
  intros Module nn_self h W.
  apply (module_gains_send_and_get Module nn_self 7 h W "send" "get").
  - by_compute.
  - intros p Hp. simpl in Hp.
    apply elem_of_cons in Hp as [->|Hp]; [by eexists|].
    apply elem_of_cons in Hp as [->|Hp]; [by eexists|].
    by apply elem_of_nil in Hp.
  - exists ∅. reflexivity.
  - by_compute.
  - by_compute.
Defined.

(** * Further properties of the hook *)

(** ** Method installation: the table it leaves *)

Lemma native_name_inj a b : native_name a = native_name b → a = b.
Proof. unfold native_name. apply (inj (String.append "native_")). Qed.

Lemma NoDup_dir (t : table) : NoDup (dir t).
Proof. unfold dir. rewrite merge_sort_Permutation. apply NoDup_elements. Qed.

Lemma excluded_not_native_name k a : k ∈ Install.exclude → k ≠ native_name a.
Proof.
  intros Hk ->.
  assert (Forall (λ k, String.get 0 k = Some "_"%char) Install.exclude) as Hall.
  { by_compute. }
  rewrite Forall_forall in Hall. specialize (Hall _ Hk). done.
Qed.

Section MethodTables.
Variable TensorFlowTensor : table.

Lemma add_method_alias (t t' : table) (attr : string) :
  attr ∉ Install.exclude →
  Install.add_method TensorFlowTensor t attr = Ok t' →
  t' !! native_name attr
  = match t !! attr with Some v => Some v | None => t !! native_name attr end.
Proof.
  intros Hex. unfold Install.add_method.
  rewrite bool_decide_eq_false_2 by done.
  unfold getattr. destruct (TensorFlowTensor !! attr) as [m|]; simpl; [|done].
  intros [= <-]. pose proof (native_name_neq attr) as Hne.
  rewrite lookup_insert_ne by done.
  destruct (t !! attr); [by rewrite lookup_insert_eq|done].
Qed.

Lemma add_method_excluded (t : table) (attr : string) :
  attr ∈ Install.exclude → Install.add_method TensorFlowTensor t attr = Ok t.
Proof. intros Hex. unfold Install.add_method. by rewrite bool_decide_eq_true_2. Qed.

Lemma add_methods_frame (attrs : list string) (t t' : table) (k : string) :
  Install.add_methods TensorFlowTensor attrs t = Ok t' →
  (∀ a, a ∈ attrs → a ∉ Install.exclude → k ≠ a ∧ k ≠ native_name a) →
  t' !! k = t !! k.
Proof.
  revert t. induction attrs as [|a attrs IH]; intros t Hrun Hk; simpl in Hrun.
  { by injection Hrun as <-. }
  destruct (Install.add_method TensorFlowTensor t a) as [t1|] eqn:Hstep; [|done].
  simpl in Hrun. rewrite (IH t1 Hrun).
  2:{ intros b Hb. apply Hk. by right. }
  destruct (decide (a ∈ Install.exclude)) as [Hex|Hex].
  - rewrite add_method_excluded in Hstep by done. by injection Hstep as <-.
  - destruct (Hk a) as [Hk1 Hk2]; [by left|done|].
    by apply (add_method_copies TensorFlowTensor t t1 a Hex Hstep).
Qed.

Lemma add_methods_final (attrs : list string) (t t' : table) :
  NoDup attrs →
  (∀ a b, a ∈ attrs → b ∈ attrs → a ∉ Install.exclude → b ∉ Install.exclude →
          native_name a ≠ b) →
  Install.add_methods TensorFlowTensor attrs t = Ok t' →
  ∀ a, a ∈ attrs → a ∉ Install.exclude →
    t' !! a = TensorFlowTensor !! a
    ∧ t' !! native_name a
      = match t !! a with Some v => Some v | None => t !! native_name a end.
Proof.
  intros Hnd. revert t.
  induction Hnd as [|a0 attrs Hnin Hnd IH]; intros t Hclash Hrun a Hin Hex.
  { by apply elem_of_nil in Hin. }
  simpl in Hrun.
  destruct (Install.add_method TensorFlowTensor t a0) as [t1|] eqn:Hstep; [|done].
  simpl in Hrun.
  assert (∀ a b, a ∈ attrs → b ∈ attrs → a ∉ Install.exclude → b ∉ Install.exclude →
                 native_name a ≠ b) as Hclash'.
  { intros x y Hx Hy. apply Hclash; by right. }
  destruct (decide (a0 ∈ Install.exclude)) as [Hex0|Hex0].
  { rewrite add_method_excluded in Hstep by done. injection Hstep as <-.
    apply elem_of_cons in Hin as [->|Hin]; [done|]. by apply IH. }
  apply elem_of_cons in Hin as [->|Hin].
  - rewrite (add_methods_frame attrs t1 t' a0 Hrun).
    2:{ intros b Hb Hexb. split; [by intros ->|].
        intros Heq. apply (Hclash b a0); try done; [by right|by left]. }
    rewrite (add_methods_frame attrs t1 t' (native_name a0) Hrun).
    2:{ intros b Hb Hexb. split.
        - apply Hclash; try done; [by left|by right].
        - intros Heq. apply native_name_inj in Heq as ->. done. }
    split; [by apply (add_method_copies TensorFlowTensor t t1 a0 Hex0 Hstep)|].
    by apply add_method_alias.
  - assert (a ≠ a0) as Hne by (by intros ->).
    destruct (IH t1 Hclash' Hrun a Hin Hex) as [H1 H2]. split; [done|].
    rewrite H2.
    destruct (add_method_copies TensorFlowTensor t t1 a0 Hex0 Hstep)
      as (_ & _ & _ & Hframe).
    rewrite (Hframe a), (Hframe (native_name a)); try done.
    + intros Heq. apply (Hclash a a0); try done; [by right|by left].
    + intros Heq. by apply native_name_inj in Heq.
    + intros Heq. apply (Hclash a0 a); try done; [by left|by right].
Qed.

Lemma add_methods_missing (attrs : list string) (t : table) (a : string) :
  a ∈ attrs → a ∉ Install.exclude → TensorFlowTensor !! a = None →
  Install.add_methods TensorFlowTensor attrs t = Raise AttributeError.
Proof.
  intros Hin Hex Hnone. revert t.
  induction attrs as [|b attrs IH]; intros t; [by apply elem_of_nil in Hin|].
  simpl. destruct (decide (b = a)) as [->|Hne].
  - unfold Install.add_method. rewrite bool_decide_eq_false_2 by done.
    unfold getattr. by rewrite Hnone.
  - apply elem_of_cons in Hin as [->|Hin]; [done|].
    unfold Install.add_method at 1. case_bool_decide; simpl; [by apply IH|].
    unfold getattr. destruct (TensorFlowTensor !! b); simpl; [by apply IH|done].
Qed.
End MethodTables.

(** X1.  When no attribute of the syft type is named [native_<a>] for
    another of its attributes, the table that method installation leaves
    holds, for every attribute [a] that is not excluded, the method of
    [TensorFlowTensor] under [a] and, under [native_<a>], what the native
    type held under [a] before the installation (or, if it held nothing,
    what it held under [native_<a>]). *)
Theorem methods_final_table (TensorFlowTensor tensor_type syft_type final : table)
    (a : string) :
  (∀ x y, x ∈ dir syft_type → y ∈ dir syft_type → native_name x ≠ y) →
  Install._add_methods_from_native_tensor TensorFlowTensor tensor_type syft_type
    = Ok final →
  a ∈ dir syft_type → a ∉ Install.exclude →
  final !! a = TensorFlowTensor !! a
  ∧ final !! native_name a
    = match tensor_type !! a with
      | Some v => Some v
      | None => tensor_type !! native_name a
      end.
Proof.
  intros Hclash Hrun Hin Hex.
  unfold Install._add_methods_from_native_tensor in Hrun.
  apply (add_methods_final TensorFlowTensor (dir syft_type) tensor_type final
           (NoDup_dir syft_type)); try done.
  intros x y Hx Hy _ _. by apply Hclash.
Qed.

Lemma methods_final_table_witness :
  let TensorFlowTensor : table := {[ "send" := Opaque "TensorFlowTensor.send";
                                     "__add__" := Opaque "TensorFlowTensor.__add__" ]} in
  let tensor_type : table := {[ "__add__" := Opaque "Tensor.__add__";
                                "shape" := Opaque "Tensor.shape" ]} in
  let final : table :=
    {[ "send" := Opaque "TensorFlowTensor.send";
       "__add__" := Opaque "TensorFlowTensor.__add__";
       "native___add__" := Opaque "Tensor.__add__";
       "shape" := Opaque "Tensor.shape" ]} in
  final !! "__add__" = TensorFlowTensor !! "__add__"
  ∧ final !! native_name "__add__"
    = match tensor_type !! "__add__" with
      | Some v => Some v
      | None => tensor_type !! native_name "__add__"
      end.
Proof.
  intros TensorFlowTensor tensor_type final.
  apply (methods_final_table TensorFlowTensor tensor_type TensorFlowTensor final "__add__").
  - intros x y Hx Hy.
    assert (Forall (λ x, Forall (λ y, native_name x ≠ y) (dir TensorFlowTensor))
              (dir TensorFlowTensor)) as Hall by by_compute.
    rewrite Forall_forall in Hall. specialize (Hall x Hx).
    rewrite Forall_forall in Hall. by apply Hall.
  - vm_compute. reflexivity.
  - by_compute.
  - by_compute.
Defined.

(** X2.  Method installation never writes a name of the exclusion list:
    whatever the two types define, the native type holds under
    [__init__], [__hash__], [__ne__] and the other excluded names exactly
    what it held before. *)
Theorem methods_never_touch_excluded (TensorFlowTensor tensor_type syft_type final : table)
    (k : string) :
  Install._add_methods_from_native_tensor TensorFlowTensor tensor_type syft_type
    = Ok final →
  k ∈ Install.exclude →
  final !! k = tensor_type !! k.
Proof.
  intros Hrun Hk.
  apply (add_methods_frame TensorFlowTensor (dir syft_type) tensor_type final k Hrun).
  intros a _ Hex. split; [by intros ->|by apply excluded_not_native_name].
Qed.

Lemma methods_never_touch_excluded_witness :
  let TensorFlowTensor : table := {[ "__init__" := Opaque "TensorFlowTensor.__init__";
                                     "__add__" := Opaque "TensorFlowTensor.__add__" ]} in
  let tensor_type : table := {[ "__init__" := Opaque "Tensor.__init__" ]} in
  let final : table := {[ "__init__" := Opaque "Tensor.__init__";
                          "__add__" := Opaque "TensorFlowTensor.__add__" ]} in
  final !! "__init__" = tensor_type !! "__init__".
Proof.
  intros TensorFlowTensor tensor_type final.
  apply (methods_never_touch_excluded TensorFlowTensor tensor_type TensorFlowTensor
           final "__init__").
  - vm_compute. reflexivity.
  - by_compute.
Defined.

(** X3.  The methods are read from the class [TensorFlowTensor], not from
    the [syft_type] argument: when [syft_type] lists an attribute outside the
    exclusion list that [TensorFlowTensor] does not define, the
    installation raises [AttributeError]. *)
Theorem methods_missing_on_TensorFlowTensor_raise
    (TensorFlowTensor tensor_type syft_type : table) (a : string) :
  is_Some (syft_type !! a) →
  a ∉ Install.exclude →
  TensorFlowTensor !! a = None →
  Install._add_methods_from_native_tensor TensorFlowTensor tensor_type syft_type
    = Raise AttributeError.
Proof.
  intros Hin Hex Hnone. unfold Install._add_methods_from_native_tensor.
  apply (add_methods_missing TensorFlowTensor (dir syft_type) tensor_type a);
    try done.
  by apply elem_of_dir.
Qed.

Lemma methods_missing_on_TensorFlowTensor_raise_witness :
  let TensorFlowTensor : table := {[ "send" := Opaque "TensorFlowTensor.send" ]} in
  let syft_type : table := {[ "send" := Opaque "Other.send";
                              "move" := Opaque "Other.move" ]} in
  Install._add_methods_from_native_tensor TensorFlowTensor ∅ syft_type
    = Raise AttributeError.
Proof.
  intros TensorFlowTensor syft_type.
  apply (methods_missing_on_TensorFlowTensor_raise TensorFlowTensor ∅ syft_type "move").
  - by eexists.
  - by_compute.
  - reflexivity.
Defined.

(** ** Registration and properties *)

(** X4.  Registering a type a second time, by the same or by another
    hook, keeps the alias [native___init__] on the constructor that was
    native before the first registration: the alias never comes to hold the
    replaced constructor. *)
Theorem registration_twice_keeps_native (hook1 hook2 : href) (is_tensor1 is_tensor2 : bool)
    (tensor_type : table) (init : value) :
  tensor_type !! "__init__" = Some init →
  tensor_type !! "native___init__" = None →
  ∃ tt1 tt2,
    Install._add_registration_to___init__ hook1 tensor_type is_tensor1 = Ok tt1
    ∧ Install._add_registration_to___init__ hook2 tt1 is_tensor2 = Ok tt2
    ∧ tt2 !! "native___init__" = Some init
    ∧ tt2 !! "__init__" = Some (Closure_new___init__ hook2 is_tensor2)
    ∧ (∀ k, k ≠ "__init__" → k ≠ "native___init__" → tt2 !! k = tensor_type !! k).
Proof.
  intros Hinit Hnone.
  destruct (registration_tables hook1 tensor_type is_tensor1 init Hinit)
    as (tt1 & Hreg1 & Halias1 & Hnew1 & Hframe1).
  destruct (registration_tables hook2 tt1 is_tensor2 _ Hnew1)
    as (tt2 & Hreg2 & Halias2 & Hnew2 & Hframe2).
  exists tt1, tt2. repeat split; try done.
  - rewrite Halias2, Halias1, Hnone. done.
  - intros k Hk1 Hk2. by rewrite Hframe2, Hframe1.
Qed.

Lemma registration_twice_keeps_native_witness :
  let tensor_type : table := {[ "__init__" := Opaque "Tensor.__init__" ]} in
  ∃ tt1 tt2,
    Install._add_registration_to___init__ 0 tensor_type true = Ok tt1
    ∧ Install._add_registration_to___init__ 1 tt1 true = Ok tt2
    ∧ tt2 !! "native___init__" = Some (Opaque "Tensor.__init__")
    ∧ tt2 !! "__init__" = Some (Closure_new___init__ 1 true)
    ∧ (∀ k, k ≠ "__init__" → k ≠ "native___init__" → tt2 !! k = tensor_type !! k).
Proof.
  intros tensor_type.
  apply (registration_twice_keeps_native 0 1 true true tensor_type
           (Opaque "Tensor.__init__")); reflexivity.
Defined.

(** X5.  Registration on a type that has neither [__init__] nor the
    alias raises [AttributeError], and property injection on a type without
    [shape] raises [AttributeError]; so does hooking the native tensor type
    when it has no [shape]. *)
Theorem hooking_needs_init_and_shape (TensorFlowTensor tensor_type : table)
    (hook_self : href) (is_tensor : bool) :
  (tensor_type !! "__init__" = None → tensor_type !! "native___init__" = None →
     Install._add_registration_to___init__ hook_self tensor_type is_tensor
       = Raise AttributeError)
  ∧ (tensor_type !! "shape" = None →
     Install._hook_properties hook_self tensor_type = Raise AttributeError)
  ∧ (tensor_type !! "shape" = None →
     Install._hook_native_tensor TensorFlowTensor hook_self tensor_type TensorFlowTensor
       = Raise AttributeError).
Proof.
  assert (∀ t : table, t !! "shape" = None →
            Install._hook_properties hook_self t = Raise AttributeError) as Hprops.
  { intros t Hs. unfold Install._hook_properties, getattr.
    rewrite !lookup_insert_ne by done. by rewrite Hs. }
  split; [|split].
  - intros Hi Ha. unfold Install._add_registration_to___init__.
    rewrite bool_decide_eq_false_2.
    + unfold getattr. by rewrite Hi.
    + rewrite elem_of_dir, Ha. by intros [? ?].
  - apply Hprops.
  - intros Hs. unfold Install._hook_native_tensor.
    destruct (Install._add_registration_to___init__ hook_self tensor_type true)
      as [tt|e] eqn:Hreg; simpl.
    + rewrite Hprops; [done|].
      unfold Install._add_registration_to___init__ in Hreg.
      case_bool_decide; simpl in Hreg.
      * injection Hreg as <-. by rewrite lookup_insert_ne.
      * unfold getattr in Hreg. destruct (tensor_type !! "__init__"); [|done].
        simpl in Hreg. injection Hreg as <-. by rewrite !lookup_insert_ne.
    + unfold Install._add_registration_to___init__ in Hreg.
      case_bool_decide; simpl in Hreg; [done|].
      unfold getattr in Hreg. destruct (tensor_type !! "__init__"); simpl in Hreg;
        congruence.
Qed.

(** ** The module overloader: hooking a namespace twice *)

Section OverloaderFacts.
Variable upper : string → bool.
Variable perform : table → string → table.
Variable exclude : list string.

(** What the walk relies on from the overloading it calls: it removes no
    name, it leaves the alias [native_<func>] behind, and the alias is the
    only name it adds. *)
Hypothesis perform_keeps :
  ∀ ns func k, is_Some (ns !! k) → is_Some (perform ns func !! k).
Hypothesis perform_aliases :
  ∀ ns func, is_Some (ns !! func) → is_Some (perform ns func !! native_name func).
Hypothesis perform_adds_alias_only :
  ∀ ns func k, is_Some (perform ns func !! k) → is_Some (ns !! k) ∨ k = native_name func.

Lemma decision_skip_mono (ns ns' : table) (func : string) :
  (∀ k, is_Some (ns !! k) → is_Some (ns' !! k)) →
  Overloader.hook_decision upper exclude ns func = Overloader.Skip →
  Overloader.hook_decision upper exclude ns' func = Overloader.Skip.
Proof.
  intros Hmono. unfold Overloader.hook_decision.
  repeat (case_match; try done).
  all: exfalso.
  all: repeat match goal with
         | H : _ || _ = false |- _ => apply orb_false_iff in H as [? ?]
         | H : _ || _ = true |- _ => apply orb_true_iff in H as [?|?]
         end; try congruence.
  match goal with
  | H1 : bool_decide (_ ∈ dir ns) = true, H2 : bool_decide (_ ∈ dir ns') = false |- _ =>
      apply bool_decide_eq_true in H1; apply bool_decide_eq_false in H2;
      apply H2, elem_of_dir, Hmono, elem_of_dir, H1
  end.
Qed.

Lemma decision_aliased (ns ns' : table) (func : string) :
  is_Some (ns' !! native_name func) →
  Overloader.hook_decision upper exclude ns func = Overloader.Overload →
  Overloader.hook_decision upper exclude ns' func = Overloader.Skip.
Proof.
  intros Halias. unfold Overloader.hook_decision.
  repeat (case_match; try done).
  all: exfalso.
  all: repeat match goal with
         | H : _ || _ = false |- _ => apply orb_false_iff in H as [? ?]
         end; try congruence.
  match goal with
  | H2 : bool_decide (_ ∈ dir ns') = false |- _ =>
      apply bool_decide_eq_false in H2; apply H2, elem_of_dir, Halias
  end.
Qed.

Lemma decision_of_alias (ns : table) (func : string) :
  Overloader.hook_decision upper exclude ns (native_name func) = Overloader.Skip.
Proof.
  unfold Overloader.hook_decision.
  case_bool_decide; [done|].
  destruct (Str.contains "__" (native_name func)); [done|].
  pose proof (contains_app "native_" func) as Hc.
  unfold native_name.
  change (Str.first_char ("native_" +:+ func)) with (Some "n").
  cbv beta iota.
  change (Str.char_isupper upper "n") with false.
  rewrite bool_decide_eq_false_2 by done.
  by rewrite Hc.
Qed.

Lemma walk_leaves_nothing_eligible (funcs : list string) (ns ns' : table) :
  (∀ f, f ∈ funcs → is_Some (ns !! f)) →
  Overloader.walk upper perform exclude funcs ns = Ok ns' →
  (∀ k, is_Some (ns !! k) → is_Some (ns' !! k))
  ∧ (∀ k, is_Some (ns' !! k) → is_Some (ns !! k) ∨ ∃ f, k = native_name f)
  ∧ (∀ f, f ∈ funcs → Overloader.hook_decision upper exclude ns' f = Overloader.Skip).
Proof.
  revert ns. induction funcs as [|f fs IH]; intros ns Hdef Hrun; simpl in Hrun.
  { injection Hrun as <-. repeat split; eauto. intros f Hf. by apply elem_of_nil in Hf. }
  destruct (Overloader.hook_decision upper exclude ns f) eqn:Hdec; [| |done].
  - destruct (IH ns) as (Hm & Hn & Hs); [intros; apply Hdef; by right|done|].
    repeat split; try done.
    intros f' Hf'. apply elem_of_cons in Hf' as [->|Hf']; [|by apply Hs].
    by eapply decision_skip_mono.
  - destruct (IH (perform ns f)) as (Hm & Hn & Hs);
      [intros; apply perform_keeps, Hdef; by right|done|].
    split; [intros k Hk; by apply Hm, perform_keeps|].
    split.
    + intros k Hk. destruct (Hn k Hk) as [Hp|?]; [|by right].
      destruct (perform_adds_alias_only ns f k Hp) as [? | ->]; [by left|right; eauto].
    + intros f' Hf'. apply elem_of_cons in Hf' as [->|Hf']; [|by apply Hs].
      eapply decision_aliased; [|done].
      apply Hm, perform_aliases, Hdef. by left.
Qed.

Lemma walk_all_skipped (funcs : list string) (ns : table) :
  (∀ f, f ∈ funcs → Overloader.hook_decision upper exclude ns f = Overloader.Skip) →
  Overloader.walk upper perform exclude funcs ns = Ok ns.
Proof.
  induction funcs as [|f fs IH]; intros Hs; simpl; [done|].
  rewrite Hs by (by left). apply IH. intros f' Hf'. apply Hs. by right.
Qed.

Lemma hook_namespace_twice (ns ns' : table) :
  Overloader.hook_namespace upper perform exclude ns = Ok ns' →
  Overloader.hook_namespace upper perform exclude ns' = Ok ns'.
Proof.
  unfold Overloader.hook_namespace. intros Hrun.
  apply walk_leaves_nothing_eligible in Hrun as (_ & Hn & Hs).
  2:{ intros f Hf. by apply elem_of_dir. }
  apply walk_all_skipped. intros f Hf. apply elem_of_dir in Hf.
  destruct (Hn f Hf) as [Hold|[g ->]].
  - apply Hs. by apply elem_of_dir.
  - apply decision_of_alias.
Qed.

Lemma hook_tensorflow_module_twice (ms ms' : list (string * table)) :
  Overloader._hook_tensorflow_module upper perform exclude ms = Ok ms' →
  Overloader._hook_tensorflow_module upper perform exclude ms' = Ok ms'.
Proof.
  revert ms'. induction ms as [|[name m] ms IH]; intros ms' Hrun; simpl in Hrun.
  { by injection Hrun as <-. }
  destruct (Overloader.hook_namespace upper perform exclude m) as [m'|] eqn:Hm; [|done].
  simpl in Hrun.
  destruct (Overloader._hook_tensorflow_module upper perform exclude ms) as [r|] eqn:Hr;
    [|done].
  simpl in Hrun. injection Hrun as <-. simpl.
  rewrite (hook_namespace_twice m m' Hm). simpl.
  by rewrite (IH r eq_refl).
Qed.
End OverloaderFacts.

Lemma alias_and_replace_keeps (ns : table) (func k : string) :
  is_Some (ns !! k) → is_Some (Overloader.alias_and_replace ns func !! k).
Proof.
  intros Hk. unfold Overloader.alias_and_replace.
  destruct (ns !! func) eqn:Hf; [|done].
  destruct (decide (k = func)) as [->|?]; [by rewrite lookup_insert_eq|].
  rewrite lookup_insert_ne by done.
  destruct (decide (k = native_name func)) as [->|?]; [by rewrite lookup_insert_eq|].
  by rewrite lookup_insert_ne.
Qed.

Lemma alias_and_replace_aliases (ns : table) (func : string) :
  is_Some (ns !! func) →
  is_Some (Overloader.alias_and_replace ns func !! native_name func).
Proof.
  intros [v Hv]. unfold Overloader.alias_and_replace. rewrite Hv.
  pose proof (native_name_neq func).
  rewrite lookup_insert_ne by done. by rewrite lookup_insert_eq.
Qed.

Lemma alias_and_replace_adds_alias_only (ns : table) (func k : string) :
  is_Some (Overloader.alias_and_replace ns func !! k) →
  is_Some (ns !! k) ∨ k = native_name func.
Proof.
  unfold Overloader.alias_and_replace.
  destruct (ns !! func) eqn:Hf; [|by left].
  destruct (decide (k = func)) as [->|?]; [left; eauto|].
  rewrite lookup_insert_ne by done.
  destruct (decide (k = native_name func)) as [->|?]; [by right|].
  rewrite lookup_insert_ne by done. by left.
Qed.

(** X6.  Provided the overloading that the walk calls removes no name and
    adds the alias [native_<func>] and nothing else, walking the namespaces
    a second time overloads nothing: every name is skipped and the
    namespaces stay as the first walk left them. *)
Theorem overloaded_namespaces_are_not_overloaded_again
    (upper : string → bool) (perform : table → string → table)
    (exclude : list string)
    (ms ms' : list (string * table)) :
  (∀ ns func k, is_Some (ns !! k) → is_Some (perform ns func !! k)) →
  (∀ ns func, is_Some (ns !! func) → is_Some (perform ns func !! native_name func)) →
  (∀ ns func k, is_Some (perform ns func !! k) →
                is_Some (ns !! k) ∨ k = native_name func) →
  Overloader._hook_tensorflow_module upper perform exclude ms = Ok ms' →
  Overloader._hook_tensorflow_module upper perform exclude ms' = Ok ms'.
Proof. intros H1 H2 H3. by apply hook_tensorflow_module_twice. Qed.

Lemma overloaded_namespaces_are_not_overloaded_again_witness :
  let ms : list (string * table) :=
    [("tensorflow", {[ "add" := Opaque "tf.add"; "Tensor" := Opaque "tf.Tensor";
                       "_private" := Opaque "tf._private" ]})] in
  let ms' : list (string * table) :=
    [("tensorflow", {[ "add" := Opaque "hooked add"; "native_add" := Opaque "tf.add";
                       "Tensor" := Opaque "tf.Tensor";
                       "_private" := Opaque "tf._private" ]})] in
  Overloader._hook_tensorflow_module Str.ascii_only
    Overloader.alias_and_replace [] ms' = Ok ms'.
Proof.
  intros ms ms'.
  apply (overloaded_namespaces_are_not_overloaded_again Str.ascii_only
           Overloader.alias_and_replace [] ms ms').
  - apply alias_and_replace_keeps.
  - apply alias_and_replace_aliases.
  - apply alias_and_replace_adds_alias_only.
  - vm_compute. reflexivity.
Defined.

(** ** Module names of hooked functions: qualified names *)

Lemma split_without_separator (sep : Ascii.ascii) (s : string) :
  Str.contains (String sep "") s = false → Str.split sep s = [s].
Proof.
  induction s as [|c s IH]; simpl; [done|].
  rewrite (Ascii.eqb_sym sep c).
  destruct (Ascii.eqb c sep); simpl; [done|].
  intros Hc. by rewrite (IH Hc).
Qed.

Lemma join_split (sep : Ascii.ascii) (s : string) :
  Str.join (String sep "") (Str.split sep s) = s.
Proof.
  induction s as [|c s IH]; simpl; [done|].
  pose proof (split_not_nil sep s) as Hne.
  destruct (Ascii.eqb c sep) eqn:Hc.
  - apply Ascii.eqb_eq in Hc as ->.
    destruct (Str.split sep s) as [|h t]; [done|]. simpl in *. by rewrite IH.
  - destruct (Str.split sep s) as [|h t]; [done|].
    destruct t as [|h' t]; simpl in *; by rewrite <- IH.
Qed.

(** X7.  The submodule of a dotted name is the name without its last
    component, and a name without a dot has the empty submodule. *)
Theorem submodule_of_qualified_name (sub leaf : string) :
  Str.contains "." leaf = false →
  HookedFunc.submodule_of (sub +:+ "." +:+ leaf) = sub
  ∧ HookedFunc.submodule_of leaf = "".
Proof.
  intros Hleaf. unfold HookedFunc.submodule_of, Str.drop_last. split.
  - change (sub +:+ "." +:+ leaf) with (sub +:+ String "."%char leaf).
    rewrite split_app, (split_without_separator _ leaf Hleaf).
    rewrite removelast_last. apply (join_split "."%char).
  - by rewrite (split_without_separator _ leaf Hleaf).
Qed.

Lemma submodule_of_qualified_name_witness :
  HookedFunc.submodule_of ("keras.layers" +:+ "." +:+ "Dense") = "keras.layers"
  ∧ HookedFunc.submodule_of "Dense" = "".
Proof. apply (submodule_of_qualified_name "keras.layers" "Dense"). reflexivity. Defined.

Section HookedFuncFacts.
Variable hooked : Type.
Variable super__get_hooked_func : HookedFunc.func_attr → hooked.

Lemma get_hooked_func_keras (attr : HookedFunc.func_attr) (name : string)
    (names : list string) :
  HookedFunc._tf_api_names attr ≠ Some [] →
  HookedFunc._keras_api_names attr = Some (name :: names) →
  HookedFunc._get_hooked_func hooked super__get_hooked_func attr
  = Ok (super__get_hooked_func
          (HookedFunc.set___module__ attr
             ("tensorflow." +:+ HookedFunc.submodule_of name))).
Proof.
  intros Htf Hk. unfold HookedFunc._get_hooked_func, HookedFunc.tf_branch.
  destruct (HookedFunc._tf_api_names attr) as [[|n ns]|] eqn:Ht; [done| |];
    try case_bool_decide; simpl; unfold HookedFunc.keras_branch; simpl;
    rewrite Hk; done.
Qed.

Lemma get_hooked_func_plain (attr : HookedFunc.func_attr) :
  HookedFunc._tf_api_names attr = None →
  HookedFunc._keras_api_names attr = None →
  HookedFunc._get_hooked_func hooked super__get_hooked_func attr
  = Ok (super__get_hooked_func attr).
Proof.
  intros Htf Hk. unfold HookedFunc._get_hooked_func, HookedFunc.tf_branch.
  rewrite Htf. simpl. unfold HookedFunc.keras_branch. by rewrite Hk.
Qed.

Lemma get_hooked_func_empty_names (attr : HookedFunc.func_attr) :
  HookedFunc._tf_api_names attr = Some []
  ∨ HookedFunc._keras_api_names attr = Some [] →
  HookedFunc._get_hooked_func hooked super__get_hooked_func attr
  = Raise AssertionError.
Proof.
  intros H. unfold HookedFunc._get_hooked_func, HookedFunc.tf_branch.
  destruct (HookedFunc._tf_api_names attr) as [[|n ns]|] eqn:Ht; [done| |];
    destruct H as [H|H]; try done;
    try case_bool_decide; simpl; unfold HookedFunc.keras_branch; simpl;
    rewrite H; done.
Qed.
End HookedFuncFacts.

(** X8.  When a function carries keras API names, its module is set from
    the first of them, [tensorflow.<submodule>], whether or not it also
    carries TensorFlow API names: the keras names take precedence. *)
Theorem keras_names_take_precedence (hooked : Type)
    (super__get_hooked_func : HookedFunc.func_attr → hooked)
    (attr : HookedFunc.func_attr) (name : string) (names : list string) :
  HookedFunc._tf_api_names attr ≠ Some [] →
  HookedFunc._keras_api_names attr = Some (name :: names) →
  HookedFunc._get_hooked_func hooked super__get_hooked_func attr
  = Ok (super__get_hooked_func
          (HookedFunc.set___module__ attr
             ("tensorflow." +:+ HookedFunc.submodule_of name))).
Proof. apply get_hooked_func_keras. Qed.

Lemma keras_names_take_precedence_witness :
  HookedFunc._get_hooked_func string HookedFunc.__module__
    {| HookedFunc._tf_api_names := Some ["math.add"; "add"];
       HookedFunc._keras_api_names := Some ["keras.layers.add"];
       HookedFunc.__module__ := "tensorflow.python.ops.math_ops" |}
  = Ok "tensorflow.keras.layers".
Proof.
  apply (keras_names_take_precedence string HookedFunc.__module__
           {| HookedFunc._tf_api_names := Some ["math.add"; "add"];
              HookedFunc._keras_api_names := Some ["keras.layers.add"];
              HookedFunc.__module__ := "tensorflow.python.ops.math_ops" |}
           "keras.layers.add" []).
  - done.
  - reflexivity.
Defined.

(** X9.  A function without API names goes to the inherited hooking with
    its module untouched; a function whose [_tf_api_names] or
    [_keras_api_names] is present but empty fails the assertion. *)
Theorem get_hooked_func_without_names (hooked : Type)
    (super__get_hooked_func : HookedFunc.func_attr → hooked)
    (attr : HookedFunc.func_attr) :
  (HookedFunc._tf_api_names attr = None → HookedFunc._keras_api_names attr = None →
     HookedFunc._get_hooked_func hooked super__get_hooked_func attr
     = Ok (super__get_hooked_func attr))
  ∧ (HookedFunc._tf_api_names attr = Some []
     ∨ HookedFunc._keras_api_names attr = Some [] →
     HookedFunc._get_hooked_func hooked super__get_hooked_func attr
     = Raise AssertionError).
Proof.
  split; [apply get_hooked_func_plain|apply get_hooked_func_empty_names].
Qed.

(** X10.  A function that carries only TensorFlow API names, the first of
    which is [<sub>.<leaf>], reports the module [tensorflow.<sub>], and the
    framework root [tensorflow] when that name has no submodule. *)
Theorem tf_qualified_name_reports_submodule (attr : HookedFunc.func_attr)
    (sub leaf : string) (names : list string) :
  Str.contains "." leaf = false →
  HookedFunc._keras_api_names attr = None →
  (HookedFunc._tf_api_names attr = Some ((sub +:+ "." +:+ leaf) :: names) →
     HookedFunc.reported_module attr
     = Ok (if bool_decide (sub = "") then "tensorflow" else "tensorflow." +:+ sub))
  ∧ (HookedFunc._tf_api_names attr = Some (leaf :: names) →
     HookedFunc.reported_module attr = Ok "tensorflow").
Proof.
  intros Hleaf Hk.
  destruct (submodule_of_qualified_name sub leaf Hleaf) as [Hsub Hnone].
  split; intros Htf.
  - rewrite (tf_names_report_spec_module attr _ names Htf Hk).
    unfold HookedFunc.spec_module. by rewrite Hsub.
  - rewrite (tf_names_report_spec_module attr _ names Htf Hk).
    unfold HookedFunc.spec_module. by rewrite Hnone.
Qed.

Lemma tf_qualified_name_reports_submodule_witness :
  let attr := {| HookedFunc._tf_api_names := Some ["math.add"; "add"];
                 HookedFunc._keras_api_names := None;
                 HookedFunc.__module__ := "tensorflow.python.ops.math_ops" |} in
  (HookedFunc._tf_api_names attr = Some (("math" +:+ "." +:+ "add") :: ["add"]) →
     HookedFunc.reported_module attr
     = Ok (if bool_decide ("math" = "") then "tensorflow" else "tensorflow." +:+ "math"))
  ∧ (HookedFunc._tf_api_names attr = Some ("add" :: ["add"]) →
     HookedFunc.reported_module attr = Ok "tensorflow").
Proof.
  intros attr.
  apply (tf_qualified_name_reports_submodule attr "math" "add" ["add"]);
    reflexivity.
Defined.

(** ** Hooking the native tensor type *)

Section NativeTensorFacts.
Variable TensorFlowTensor : table.

Lemma add_methods_keep_names (attrs : list string) (t t' : table) (k : string) :
  Install.add_methods TensorFlowTensor attrs t = Ok t' →
  is_Some (t !! k) → is_Some (t' !! k).
Proof.
  revert t. induction attrs as [|a attrs IH]; intros t Hrun Hk; simpl in Hrun.
  { by injection Hrun as <-. }
  destruct (Install.add_method TensorFlowTensor t a) as [t1|] eqn:Hstep; [|done].
  simpl in Hrun. apply (IH t1 Hrun).
  unfold Install.add_method in Hstep. case_bool_decide.
  { by injection Hstep as <-. }
  unfold getattr in Hstep. destruct (TensorFlowTensor !! a); simpl in Hstep; [|done].
  injection Hstep as <-.
  destruct (decide (k = a)) as [->|?]; [by rewrite lookup_insert_eq|].
  rewrite lookup_insert_ne by done.
  destruct (t !! a); [|done].
  destruct (decide (k = native_name a)) as [->|?]; [by rewrite lookup_insert_eq|].
  by rewrite lookup_insert_ne.
Qed.

Lemma hook_properties_keep_names (hook_self : href) (t t' : table) (k : string) :
  Install._hook_properties hook_self t = Ok t' →
  (is_Some (t !! k) → is_Some (t' !! k)) ∧ t' !! "__init__" = t !! "__init__".
Proof.
  unfold Install._hook_properties, getattr.
  rewrite !lookup_insert_ne by done.
  destruct (t !! "shape") as [shape|]; simpl; [|done]. intros [= <-].
  split; [|by rewrite !lookup_insert_ne].
  intros Hk.
  repeat (rewrite lookup_insert; case_decide; [by eexists|]). done.
Qed.
End NativeTensorFacts.

(** X11.  Hooking the native tensor type removes no attribute: every name
    the type defines before is still defined after; and whatever
    [TensorFlowTensor] defines, [__init__] ends up holding the replaced
    constructor of this hook, installed with [is_tensor] true. *)
Theorem hook_native_tensor_keeps_names (TensorFlowTensor tensor_type hooked_type : table)
    (hook_self : href) (k : string) :
  Install._hook_native_tensor TensorFlowTensor hook_self tensor_type TensorFlowTensor
    = Ok hooked_type →
  (is_Some (tensor_type !! k) → is_Some (hooked_type !! k))
  ∧ hooked_type !! "__init__" = Some (Closure_new___init__ hook_self true).
Proof.
  unfold Install._hook_native_tensor. intros Hrun.
  destruct (Install._add_registration_to___init__ hook_self tensor_type true)
    as [t1|] eqn:Hreg; [|done].
  simpl in Hrun.
  destruct (Install._hook_properties hook_self t1) as [t2|] eqn:Hprops; [|done].
  simpl in Hrun.
  destruct (hook_properties_keep_names hook_self t1 t2 k Hprops) as [Hk2 Hinit2].
  assert (t1 !! "__init__" = Some (Closure_new___init__ hook_self true)
          ∧ (is_Some (tensor_type !! k) → is_Some (t1 !! k))) as [Hinit1 Hk1].
  { unfold Install._add_registration_to___init__ in Hreg.
    case_bool_decide; simpl in Hreg.
    - injection Hreg as <-. split; [by rewrite lookup_insert_eq|].
      intros Hk. rewrite lookup_insert. case_decide; [by eexists|done].
    - unfold getattr in Hreg. destruct (tensor_type !! "__init__"); [|done].
      simpl in Hreg. injection Hreg as <-. split; [by rewrite lookup_insert_eq|].
      intros Hk. repeat (rewrite lookup_insert; case_decide; [by eexists|]). done. }
  split.
  - intros Hk. eapply add_methods_keep_names; [exact Hrun|]. by apply Hk2, Hk1.
  - unfold Install._add_methods_from_native_tensor in Hrun.
    rewrite (add_methods_frame _ _ _ _ "__init__" Hrun); [by rewrite Hinit2|].
    intros a _ Hex. split; [intros <-; apply Hex; by_compute|].
    apply excluded_not_native_name. by_compute.
Qed.

Lemma hook_native_tensor_keeps_names_witness :
  let TensorFlowTensor : table :=
    {[ "__init__" := Opaque "TensorFlowTensor.__init__";
       "shape" := Opaque "TensorFlowTensor.shape" ]} in
  let tensor_type : table :=
    {[ "__init__" := Opaque "Tensor.__init__"; "shape" := Opaque "Tensor.shape" ]} in
  let hooked_type :=
    match Install._hook_native_tensor TensorFlowTensor 4 tensor_type TensorFlowTensor with
    | Ok t => t
    | Raise _ => ∅
    end in
  (is_Some (tensor_type !! "shape") → is_Some (hooked_type !! "shape"))
  ∧ hooked_type !! "__init__" = Some (Closure_new___init__ 4 true).
Proof.
  intros TensorFlowTensor tensor_type hooked_type.
  apply (hook_native_tensor_keeps_names TensorFlowTensor tensor_type hooked_type 4
           "shape").
  vm_compute. reflexivity.
Defined.

(** ** The first construction of the hook *)

Lemma install_binds_local_worker (TensorFlowTensor : table)
    (upper : string → bool) (perform : table → string → table)
    (exclude : list string)
    (self : href) (is_client : bool) (s s' : Hook.process) :
  Hook.install TensorFlowTensor upper perform exclude self is_client s = Ok s' →
  let lw := Hook.get_local_worker self s in
  let w := default (fresh (dom (Hook.workers s))) lw in
  Hook.syft_hook s' = Some self
  ∧ Hook.syft_local_worker s' = Some w
  ∧ Hook.get_local_worker self s' = Some w
  ∧ Hook.workers s'
    = match lw with
      | None =>
          <[w := {| Hook.worker_id := "me"; Hook.worker_hook := Some self;
                    Hook.is_client_worker := is_client |}]> (Hook.workers s)
      | Some _ =>
          alter (λ o, {| Hook.worker_id := Hook.worker_id o;
                         Hook.worker_hook := Some self;
                         Hook.is_client_worker := Hook.is_client_worker o |})
            w (Hook.workers s)
      end.
Proof.
  unfold Hook.install.
  destruct (Hook.get_local_worker self s) as [w0|] eqn:Hlw;
    cbn [Hook.VirtualWorker];
    destruct (Install._hook_native_tensor _ _ _ _) as [tensor|];
    cbn [mbind result_mbind result_bind]; try done;
    destruct (Overloader._hook_tensorflow_module _ _ _ _) as [modules|];
    cbn [mbind result_mbind result_bind]; try done;
    intros [= <-]; unfold Hook.get_local_worker in *; cbn in *;
    rewrite ?lookup_insert_eq; cbn; rewrite ?Hlw, ?lookup_insert_eq; cbn;
    repeat split; done.
Qed.

(** X12.  The first construction on a framework without the marker, when
    it returns, has set the marker and bound [syft.hook] and
    [syft.local_worker]: without a [local_worker] argument it has created one
    new worker, with id ["me"], this hook and the given client flag, and made
    it the local worker of the hook and of [syft]; with a [local_worker]
    argument it has created none, has set the hook of that worker to this
    hook and made that worker the local worker. *)
Theorem first_construction_sets_local_worker (TensorFlowTensor : table)
    (upper : string → bool) (perform : table → string → table)
    (exclude : list string)
    (self : href) (lw : option wref) (is_client : bool) (s0 s1 : Hook.process) :
  Hook.tf_hooked s0 = false →
  Hook.__init__ TensorFlowTensor upper perform exclude self lw is_client s0 = Ok s1 →
  let w := default (fresh (dom (Hook.workers s0))) lw in
  Hook.tf_hooked s1 = true
  ∧ Hook.syft_hook s1 = Some self
  ∧ Hook.syft_local_worker s1 = Some w
  ∧ Hook.get_local_worker self s1 = Some w
  ∧ Hook.workers s1
    = match lw with
      | None =>
          <[w := {| Hook.worker_id := "me"; Hook.worker_hook := Some self;
                    Hook.is_client_worker := is_client |}]> (Hook.workers s0)
      | Some _ =>
          alter (λ o, {| Hook.worker_id := Hook.worker_id o;
                         Hook.worker_hook := Some self;
                         Hook.is_client_worker := Hook.is_client_worker o |})
            w (Hook.workers s0)
      end
  ∧ (lw = None → Hook.workers s0 !! w = None).
Proof.
  intros Hmarker Hrun w.
  split; [by apply init_sets_marker in Hrun as [? _]|].
  unfold Hook.__init__ in Hrun.
  cbn [Hook.tf_hooked Hook.set_tf_hook Hook.set_syft_tensorflow
         Hook.set_syft_framework Hook.set_local_worker Hook.set_hooks] in Hrun.
  rewrite Hmarker in Hrun.
  apply install_binds_local_worker in Hrun.
  unfold Hook.get_local_worker in Hrun. simpl in Hrun.
  rewrite !lookup_insert_eq in Hrun. simpl in Hrun.
  destruct Hrun as (H1 & H2 & H3 & H4).
  repeat split; try done.
  intros ->. apply not_elem_of_dom, is_fresh.
Qed.

Lemma first_construction_sets_local_worker_witness :
  let TensorFlowTensor : table := {[ "send" := Opaque "TensorFlowTensor.send" ]} in
  let tensor : table :=
    {[ "__init__" := Opaque "Tensor.__init__"; "shape" := Opaque "Tensor.shape" ]} in
  let s0 := Hook.unhooked tensor ∅ [("tensorflow", {[ "add" := Opaque "tf.add" ]})] in
  let s1 :=
    match Hook.__init__ TensorFlowTensor Str.ascii_only Overloader.alias_and_replace [] 0 None true s0
    with Ok s => s | Raise _ => s0 end in
  let w := default (fresh (dom (Hook.workers s0))) None in
  Hook.tf_hooked s1 = true
  ∧ Hook.syft_hook s1 = Some 0
  ∧ Hook.syft_local_worker s1 = Some w
  ∧ Hook.get_local_worker 0 s1 = Some w
  ∧ Hook.workers s1
    = <[w := {| Hook.worker_id := "me"; Hook.worker_hook := Some 0;
                Hook.is_client_worker := true |}]> (Hook.workers s0)
  ∧ (@None wref = None → Hook.workers s0 !! w = None).
Proof.
  intros TensorFlowTensor tensor s0 s1 w.
  apply (first_construction_sets_local_worker TensorFlowTensor Str.ascii_only
           Overloader.alias_and_replace [] 0 None true s0 s1).
  - reflexivity.
  - vm_compute. reflexivity.
Defined.

(** ** The property [is_wrapper] *)

Lemma run_keeps_is_wrapper (id_seq : nat → ident) (l : list Identity.access)
    (self : Identity.instance) (b : bool) :
  Identity._is_wrapper self = Some b →
  forallb (λ a, match a with Identity.Write_is_wrapper _ => false | _ => true end) l
    = true →
  Identity._is_wrapper (Identity.run id_seq l self).2 = Some b
  ∧ ∀ b', Identity.Saw_is_wrapper b' ∈ (Identity.run id_seq l self).1 → b' = b.
Proof.
  revert self. induction l as [|a l IH]; intros self Hw Hl.
  { simpl. split; [done|]. intros j Hj. by apply elem_of_nil in Hj. }
  simpl in Hl. apply andb_prop in Hl as [Ha Hl]. simpl.
  destruct (Identity.step id_seq a self) as [o self'] eqn:Hstep.
  assert (Identity._is_wrapper self' = Some b
          ∧ ∀ j, o = Identity.Saw_is_wrapper j → j = b) as [Hw' Ho].
  { destruct a; simpl in Hstep, Ha; try done;
      unfold Identity.id_get, Identity.owner_get, Identity.is_wrapper_get in Hstep;
      rewrite ?Hw in Hstep; repeat case_match; simplify_eq; simpl; split; congruence. }
  specialize (IH self' Hw' Hl).
  destruct (Identity.run id_seq l self') as [os self''] eqn:Hrun. simpl in *.
  destruct IH as [IH1 IH2]. split; [done|].
  intros j Hj. apply elem_of_cons in Hj as [Hj|Hj]; eauto.
Qed.

(** X13.  On an instance that has no [_is_wrapper] yet, the first read of
    [is_wrapper] gives [False]; whatever reads and writes of [id] and [owner]
    and reads of [is_wrapper] follow, every later read of [is_wrapper] gives
    the value of the first read, and after an assignment a read gives the
    assigned value. *)
Theorem is_wrapper_defaults_false_and_is_stable (id_seq : nat → ident)
    (self : Identity.instance) (l : list Identity.access) :
  let first := Identity.is_wrapper_get self in
  (Identity._is_wrapper self = None → first.1 = false)
  ∧ (forallb (λ a, match a with Identity.Write_is_wrapper _ => false | _ => true end) l
       = true →
     ∀ b, Identity.Saw_is_wrapper b ∈ (Identity.run id_seq l first.2).1 → b = first.1)
  ∧ (∀ b, (Identity.is_wrapper_get (Identity.is_wrapper_set self b)).1 = b).
Proof.
  intros first. split; [|split].
  - unfold first, Identity.is_wrapper_get. by intros ->.
  - intros Hl. eapply run_keeps_is_wrapper; [|done].
    unfold first, Identity.is_wrapper_get. by destruct (Identity._is_wrapper self) eqn:H.
  - done.
Qed.
